(** * ILI9341 display driver (m5stack/ili9341.py): model and properties

    The driver talks to the panel over SPI with three GPIO lines.  The
    model keeps Python's unbounded integers as [Z], byte strings as
    [list byte], the driver object as a record, and logs every pin and
    bus operation on a trace, so that statements about "what is sent to
    the hardware" are statements about that trace. *)

From Stdlib Require Import ZArith Lia List String Ascii.
From Stdlib Require Import Strings.Byte.
From stdpp Require Import base list.

Import ListNotations.
Local Open Scope Z_scope.

(** ** Bytes and [ustruct.pack] *)

Abbreviation bytes := (list byte).

(** The integer a byte denotes when Python indexes or iterates a bytes
    object. *)
Definition Z_of_byte (b : byte) : Z := Z.of_N (Byte.to_N b).

(** Storing an integer into one byte keeps its low 8 bits. *)
Definition byte_of_Z (z : Z) : byte :=
  match Byte.of_N (Z.to_N (z mod 256)) with
  | Some b => b
  | None => x00
  end.

(** [ustruct.pack(">H", v)]: MicroPython's ustruct stores the low 16 bits
    of [v], most significant byte first, and does no range check. *)
Definition pack_H (v : Z) : bytes :=
  [byte_of_Z (Z.shiftr v 8); byte_of_Z v].

(** [ustruct.pack(">HH", a, b)]. *)
Definition pack_HH (a b : Z) : bytes := pack_H a ++ pack_H b.

(** [data * n] on byte strings; a count below 1 gives the empty string. *)
Definition bytes_mul (data : bytes) (n : Z) : bytes :=
  concat (replicate (Z.to_nat n) data).

(** [bytearray(n)]: [n] zero bytes. *)
Definition bytearray (n : nat) : bytes := replicate n x00.

(** Big-endian reading of a byte string, as the panel decodes a 16-bit
    parameter. *)
Definition be_value (bs : bytes) : Z :=
  fold_left (fun acc b => 256 * acc + Z_of_byte b) bs 0.

(** ** Constants *)

Definition _COLUMN_SET : Z := 0x2a.
Definition _PAGE_SET : Z := 0x2b.
Definition _RAM_WRITE : Z := 0x2c.
Definition _RAM_READ : Z := 0x2e.
Definition _DISPLAY_ON : Z := 0x29.
Definition _WAKE : Z := 0x11.
Definition _LINE_SET : Z := 0x37.
Definition _MADCTL : Z := 0x36.

Definition _MADCTL_MY : Z := 0x80.
Definition _MADCTL_MX : Z := 0x40.
Definition _MADCTL_MV : Z := 0x20.
Definition _MADCTL_ML : Z := 0x10.
Definition _MADCTL_RGB : Z := 0x00.
Definition _MADCTL_BGR : Z := 0x08.
Definition _MADCTL_MH : Z := 0x04.

(** ** [color565] *)

Definition color565 (r g b : Z) : Z :=
  Z.lor (Z.lor (Z.shiftl (Z.land r 0xf8) 8) (Z.shiftl (Z.land g 0xfc) 3))
        (Z.shiftr b 3).

(** The three fields of a 5-6-5 word: red in bits 15..11, green in bits
    10..5, blue in bits 4..0. *)
Definition red565 (c : Z) : Z := Z.land (Z.shiftr c 11) 0x1f.
Definition green565 (c : Z) : Z := Z.land (Z.shiftr c 5) 0x3f.
Definition blue565 (c : Z) : Z := Z.land c 0x1f.

(** ** The driver object and the bus trace *)

(** Class attributes. *)
Definition width : Z := 320.
Definition height : Z := 240.

(** Instance attributes that the methods read or write.  The [spi], [cs],
    [dc] and [rst] handles are the hardware itself: what the driver does
    to them is logged as events. *)
Record ILI9341 := {
  mode : Z;
  _scroll : Z
}.

Inductive event :=
| DcValue (v : Z)                         (* self.dc.value(v) *)
| CsValue (v : Z)                         (* self.cs.value(v) *)
| RstValue (v : Z)                        (* self.rst.value(v) *)
| SpiWrite (data : bytes)                 (* self.spi.write(data) *)
| SpiRead (count : Z) (reply : bytes)     (* self.spi.read(count) *)
| SleepMs (ms : Z)                        (* time.sleep_ms(ms) *)
| CsInit (v : Z)                          (* self.cs.init(self.cs.OUT, value=v) *)
| DcInit (v : Z)                          (* self.dc.init(self.dc.OUT, value=v) *)
| RstInit (v : Z).                        (* self.rst.init(self.rst.OUT, value=v) *)

Inductive exn := ValueError | IndexError | NameError.

Inductive result (A : Type) :=
| Ok (a : A)
| Raise (e : exn).
Arguments Ok {A} a.
Arguments Raise {A} e.

(** The state a method runs in: the driver object and the number of bytes
    the panel has shifted out so far. *)
Record state := {
  self : ILI9341;
  rx : nat
}.

(** A method maps a state to its outcome, the new state and the events it
    caused, in order.  Events that happened before an exception stay on
    the trace. *)
Definition M (A : Type) : Type := state -> result A * state * list event.

Definition ret {A} (a : A) : M A := fun s => (Ok a, s, []).

Definition bind {A B} (m : M A) (f : A -> M B) : M B :=
  fun s =>
    match m s with
    | (Ok a, s1, t1) =>
        match f a s1 with
        | (r, s2, t2) => (r, s2, t1 ++ t2)
        end
    | (Raise e, s1, t1) => (Raise e, s1, t1)
    end.

Definition raise {A} (e : exn) : M A := fun s => (Raise e, s, []).
Definition emit (e : event) : M unit := fun s => (Ok tt, s, [e]).
Definition get_self : M ILI9341 := fun s => (Ok (self s), s, []).
Definition set_scroll (v : Z) : M unit :=
  fun s => (Ok tt, {| self := {| mode := mode (self s); _scroll := v |};
                      rx := rx s |}, []).

Declare Scope drv_scope.
Delimit Scope drv_scope with drv.
Notation "x <- m ;; k" := (bind m (fun x => k))
  (at level 100, m at next level, right associativity) : drv_scope.
Notation "m ;; k" := (bind m (fun _ => k))
  (at level 100, right associativity) : drv_scope.
Local Open Scope drv_scope.

(** [for a in l: body(a)]. *)
Fixpoint for_each {A} (l : list A) (body : A -> M unit) : M unit :=
  match l with
  | [] => ret tt
  | a :: l' => body a ;; for_each l' body
  end.

(** [range(n)]. *)
Definition range (n : Z) : list Z := map Z.of_nat (seq 0 (Z.to_nat n)).

Definition outcome {A} (r : result A * state * list event) : result A := r.1.1.
Definition final {A} (r : result A * state * list event) : state := r.1.2.
Definition trace {A} (r : result A * state * list event) : list event := r.2.

(** ** Pure loops that may raise *)

Definition rbind {A B} (r : result A) (f : A -> result B) : result B :=
  match r with
  | Ok a => f a
  | Raise e => Raise e
  end.

Notation "x <~ r ;; k" := (rbind r (fun x => k))
  (at level 100, r at next level, right associativity) : drv_scope.

Definition lift {A} (r : result A) : M A := fun s => (r, s, []).

(** [for a in l: acc = f(acc, a)], stopping at the first exception. *)
Fixpoint rfold {A B} (f : B -> A -> result B) (l : list A) (acc : B) : result B :=
  match l with
  | [] => Ok acc
  | a :: l' => acc' <~ f acc a ;; rfold f l' acc'
  end.

(** Python indexing: a negative index counts from the end, anything
    outside the sequence raises IndexError. *)
Definition index_of (len : nat) (i : Z) : option nat :=
  let j := if i <? 0 then i + Z.of_nat len else i in
  if (0 <=? j) && (j <? Z.of_nat len) then Some (Z.to_nat j) else None.

Definition getitem (data : bytes) (i : Z) : result byte :=
  match index_of (length data) i with
  | Some n =>
      match data !! n with
      | Some b => Ok b
      | None => Raise IndexError
      end
  | None => Raise IndexError
  end.

Definition setitem (data : bytes) (i : Z) (v : byte) : result bytes :=
  match index_of (length data) i with
  | Some n => Ok (<[n := v]> data)
  | None => Raise IndexError
  end.

(** [data[i] = c[0]; data[i + 1] = c[1]]: one pixel of a packed colour. *)
Definition put_pixel (data : bytes) (i : Z) (c : bytes) : result bytes :=
  c0 <~ getitem c 0 ;;
  d <~ setitem data i c0 ;;
  c1 <~ getitem c 1 ;;
  setitem d (i + 1) c1.

(** [enumerate(buffer)] over a bytes object: indices with integer items. *)
Definition enumerate (buffer : bytes) : list (Z * Z) :=
  imap (fun i b => (Z.of_nat i, Z_of_byte b)) buffer.

(** The body of [char]'s loops: expand the 8 column bytes of the glyph,
    least significant bit on top, into 8 rows of 8 two-byte pixels. *)
Definition char_data (buffer color background : bytes) : result bytes :=
  rfold (fun data '(c, byte) =>
           rfold (fun data r =>
                    if Z.land byte (Z.shiftl 1 r) =? 0
                    then put_pixel data (r * 8 * 2 + c * 2) background
                    else put_pixel data (r * 8 * 2 + c * 2) color)
                 (range 8) data)
        (enumerate buffer) (bytearray (2 * 8 * 8)).

(** The body of [font_char]'s loops.  The local [data] holds the current
    glyph byte and survives from one row, and one column, to the next; it
    is unbound until the first load. *)
Definition font_char_data (glyph : bytes) (char_height char_width gbytes : Z)
    (color background : bytes) (odata : bytes) : result bytes :=
  st <~ rfold (fun st scol =>
           rfold (fun '(data, odata) srow =>
                    let gbyte := srow / 8 in
                    let gbit := srow mod 8 in
                    data <~ (if gbit =? 0
                             then b <~ getitem glyph (scol * gbytes + gbyte) ;;
                                  Ok (Some (Z_of_byte b))
                             else Ok data) ;;
                    match data with
                    | None => Raise NameError
                    | Some d =>
                        odata' <~ (if Z.land d (Z.shiftl 1 gbit) =? 0
                                   then put_pixel odata
                                          (srow * char_width * 2 + scol * 2)
                                          background
                                   else put_pixel odata
                                          (srow * char_width * 2 + scol * 2)
                                          color) ;;
                        Ok (data, odata')
                    end)
                 (range char_height) st)
        (range char_width) (None, odata) ;;
  Ok st.2.

(** A font provider: [font.get_ch(char)] gives the glyph bytes, the
    height and the width. *)
Definition font := string -> bytes * Z * Z.

Section Driver.

(** The panel's output: byte [i] of everything it will ever shift out on
    MISO. *)
Variable miso : nat -> byte.

(** The built-in 8x8 font of [framebuf]: byte [c] of the 8-byte buffer
    after [FrameBuffer1(buffer, 8, 8).text(char, 0, 0)]. *)
Variable framebuf_text : string -> nat -> byte.

(** [self.spi.read(count)]: the next [count] bytes from the panel.  The
    model covers calls that succeed, with a count that is not negative;
    a bus call that fails is outside it. *)
Definition spi_read (count : Z) : M bytes :=
  fun s =>
    let reply := map miso (seq (rx s) (Z.to_nat count)) in
    (Ok reply, {| self := self s; rx := (rx s + Z.to_nat count)%nat |},
     [SpiRead count reply]).

Definition _data (data : bytes) : M unit :=
  emit (DcValue 1) ;;
  emit (CsValue 0) ;;
  emit (SpiWrite data) ;;
  emit (CsValue 1).

Definition _write (command : Z) (data : option bytes) : M unit :=
  emit (DcValue 0) ;;
  emit (CsValue 0) ;;
  emit (SpiWrite [byte_of_Z command]) ;;
  emit (CsValue 1) ;;
  match data with
  | Some d => _data d
  | None => ret tt
  end.

Definition _read (command : Z) (count : Z) : M bytes :=
  emit (DcValue 0) ;;
  emit (CsValue 0) ;;
  emit (SpiWrite [byte_of_Z command]) ;;
  data <- spi_read count ;;
  emit (CsValue 1) ;;
  ret data.

Definition set_rotation (value : Z) : M unit :=
  s <- get_self ;;
  let values := [Z.lor _MADCTL_MX (mode s);
                 Z.lor _MADCTL_MV (mode s);
                 Z.lor _MADCTL_MY (mode s);
                 Z.lor (Z.lor (Z.lor _MADCTL_MX _MADCTL_MY) _MADCTL_MV) (mode s)] in
  match values !! Z.to_nat (value mod 4) with
  | Some v => _write _MADCTL (Some (pack_H v))
  | None => raise IndexError
  end.

Definition _block (x0 y0 x1 y1 : Z) (data : option bytes) : M (option bytes) :=
  _write _COLUMN_SET (Some (pack_HH x0 x1)) ;;
  _write _PAGE_SET (Some (pack_HH y0 y1)) ;;
  match data with
  | None =>
      d <- _read _RAM_READ ((x1 - x0 + 1) * (y1 - y0 + 1) * 3) ;;
      ret (Some d)
  | Some d =>
      _write _RAM_WRITE (Some d) ;;
      ret None
  end.

(** [pixel(x, y)] reads, [pixel(x, y, color)] writes.  The read unpacks
    the reply into exactly three names, in the order [r, b, g]. *)
Definition pixel (x y : Z) (color : option Z) : M (option Z) :=
  match color with
  | None =>
      reply <- _block x y x y None ;;
      match reply with
      | Some [r; b; g] =>
          ret (Some (color565 (Z_of_byte r) (Z_of_byte g) (Z_of_byte b)))
      | _ => raise ValueError
      end
  | Some color =>
      if negb ((0 <=? x) && (x <? width)) || negb ((0 <=? y) && (y <? height))
      then ret None
      else _block x y x y (Some (pack_H color)) ;; ret None
  end.

(** The first four statements of [fill_rectangle]: the rectangle it
    really fills. *)
Definition clamp (x y w h : Z) : Z * Z * Z * Z :=
  let x := Z.min (width - 1) (Z.max 0 x) in
  let y := Z.min (height - 1) (Z.max 0 y) in
  let w := Z.min (width - x) (Z.max 1 w) in
  let h := Z.min (height - y) (Z.max 1 h) in
  (x, y, w, h).

Definition fill_rectangle (x y w h color : Z) : M unit :=
  let '(x, y, w, h) := clamp x y w h in
  _block x y (x + w - 1) (y + h - 1) (Some []) ;;
  let chunks := (w * h) / 512 in
  let rest := (w * h) mod 512 in
  (if chunks =? 0 then ret tt
   else
     let data := bytes_mul (pack_H color) 512 in
     for_each (range chunks) (fun _ => _data data)) ;;
  let data := bytes_mul (pack_H color) rest in
  _data data.

Definition fill (color : Z) : M unit :=
  fill_rectangle 0 0 width height color.

Definition char (ch : string) (x y color background : Z) : M unit :=
  let buffer := map (framebuf_text ch) (seq 0 8) in
  let color := pack_H color in
  let background := pack_H background in
  data <- lift (char_data buffer color background) ;;
  _block x y (x + 7) (y + 7) (Some data) ;;
  ret tt.

Definition font_char (f : font) (ch : string) (x y color background : Z) : M Z :=
  let '(glyph, char_height, char_width) := f ch in
  let div := char_height / 8 in
  let mod_ := char_height mod 8 in
  let color := pack_H color in
  let background := pack_H background in
  let gbytes := if mod_ =? 0 then div else div + 1 in
  odata <- (if 2 * char_height * char_width <? 0 then raise ValueError
            else ret (bytearray (Z.to_nat (2 * char_height * char_width)))) ;;
  odata <- lift (font_char_data glyph char_height char_width gbytes
                   color background odata) ;;
  _block x y (x + char_width - 1) (y + char_height - 1) (Some odata) ;;
  ret char_width.

Section Text.

Variables (x y color background wrap vwrap : Z) (clear_eol : bool)
          (fnt : option font).

(** The closure [new_line] of [text], on the cursor it captures. *)
Definition new_line (cur : Z * Z) : Z * Z :=
  let tx := x in
  let ty := cur.2 + 8 in
  if ty >=? vwrap then (tx, y) else (tx, ty).

(** The loop [for char in text], threading the cursor [(tx, ty)]. *)
Fixpoint text_loop (chars : list ascii) (cur : Z * Z) : M (Z * Z) :=
  match chars with
  | [] => ret cur
  | ch :: rest =>
      if Ascii.eqb ch "010"%char then
        (if clear_eol && (cur.1 <? wrap)
         then fill_rectangle cur.1 cur.2 (wrap - cur.1 + 7) 8 background
         else ret tt) ;;
        text_loop rest (new_line cur)
      else
        let cur := if cur.1 >=? wrap then new_line cur else cur in
        match fnt with
        | None =>
            char (String ch EmptyString) cur.1 cur.2 color background ;;
            text_loop rest (cur.1 + 8, cur.2)
        | Some f =>
            w <- font_char f (String ch EmptyString) cur.1 cur.2 color background ;;
            text_loop rest (cur.1 + w, cur.2)
        end
  end.

End Text.

(** [text(text, x, y, color, background, wrap, vwrap, clear_eol, font)];
    [None] for [wrap], [vwrap] or [font] is the default of the source. *)
Definition text (txt : string) (x y color background : Z)
    (wrap vwrap : option Z) (clear_eol : bool) (fnt : option font) : M unit :=
  let wrap := match wrap with None => width - 8 | Some v => v end in
  let vwrap := match vwrap with None => height - 8 | Some v => v end in
  cur <- text_loop x y color background wrap vwrap clear_eol fnt
           (list_ascii_of_string txt) (x, y) ;;
  if clear_eol && (cur.1 <? wrap)
  then fill_rectangle cur.1 cur.2 (wrap - cur.1 + 7) 8 background
  else ret tt.

(** [scroll()] returns the stored offset; [scroll(dy)] moves it. *)
Definition scroll (dy : option Z) : M (option Z) :=
  s <- get_self ;;
  match dy with
  | None => ret (Some (_scroll s))
  | Some dy =>
      set_scroll ((_scroll s + dy) mod height) ;;
      s' <- get_self ;;
      _write _LINE_SET (Some (pack_H (_scroll s'))) ;;
      ret None
  end.

(** The constructor: pin set-up, hardware reset, the vendor's register
    table, then the rotation; the scroll offset starts at 0. *)
Definition reset : M unit :=
  emit (RstValue 0) ;;
  emit (SleepMs 50) ;;
  emit (RstValue 1) ;;
  emit (SleepMs 50).

Definition init_table : list (Z * list Z) :=
  [(0xef, [0x03; 0x80; 0x02]);
   (0xcf, [0x00; 0xc1; 0x30]);
   (0xed, [0x64; 0x03; 0x12; 0x81]);
   (0xe8, [0x85; 0x00; 0x78]);
   (0xcb, [0x39; 0x2c; 0x00; 0x34; 0x02]);
   (0xf7, [0x20]);
   (0xea, [0x00; 0x00]);
   (0xc0, [0x23]);
   (0xc1, [0x10]);
   (0xc5, [0x3e; 0x28]);
   (0xc7, [0x86]);
   (0x36, [0x48]);
   (0x36, [0x40]);
   (0x3a, [0x55]);
   (0xb1, [0x00; 0x18]);
   (0xb6, [0x08; 0x82; 0x27]);
   (0xf2, [0x00]);
   (0x26, [0x01]);
   (0xe0, [0x0f; 0x31; 0x2b; 0x0c; 0x0e; 0x08; 0x4e; 0xf1; 0x37; 0x07;
           0x10; 0x03; 0x0e; 0x09; 0x00]);
   (0xe1, [0x00; 0x0e; 0x14; 0x03; 0x11; 0x07; 0x31; 0xc1; 0x48; 0x08;
           0x0f; 0x0c; 0x31; 0x36; 0x0f])].

Definition init : M unit :=
  for_each init_table
    (fun '(command, data) => _write command (Some (map byte_of_Z data))) ;;
  _write _WAKE None ;;
  emit (SleepMs 120) ;;
  _write _DISPLAY_ON None.

Definition __init__ (rotation mode_ : Z) : M unit :=
  (fun s => (Ok tt, {| self := {| mode := mode_; _scroll := _scroll (self s) |};
                       rx := rx s |}, [])) ;;
  emit (CsInit 1) ;;
  emit (DcInit 0) ;;
  emit (RstInit 0) ;;
  reset ;;
  init ;;
  emit (SleepMs 120) ;;
  set_rotation rotation ;;
  set_scroll 0.

End Driver.

(** ** What the panel sees

    The panel takes a byte written while chip-select is low as a command
    when the data/command line is low, and as parameter or pixel data of
    the latest command when it is high.  [scan] replays a trace and lists
    every data transfer with the command it belongs to. *)

Fixpoint scan (dc cs : Z) (cmd : option Z) (tr : list event) : list (Z * bytes) :=
  match tr with
  | [] => []
  | DcValue v :: tr' => scan v cs cmd tr'
  | DcInit v :: tr' => scan v cs cmd tr'
  | CsValue v :: tr' => scan dc v cmd tr'
  | CsInit v :: tr' => scan dc v cmd tr'
  | SpiWrite data :: tr' =>
      if cs =? 0 then
        if dc =? 0 then
          scan dc cs (match last data with
                      | Some b => Some (Z_of_byte b)
                      | None => cmd
                      end) tr'
        else
          match cmd with
          | Some op => (op, data) :: scan dc cs cmd tr'
          | None => scan dc cs cmd tr'
          end
      else scan dc cs cmd tr'
  | _ :: tr' => scan dc cs cmd tr'
  end.

(** Before the first event chip-select idles high and no command has been
    given. *)
Definition transfers (tr : list event) : list (Z * bytes) := scan 0 1 None tr.

(** A 4-byte parameter as the pair of 16-bit bounds it encodes. *)
Definition bounds (payload : bytes) : option (Z * Z) :=
  match payload with
  | [a; b; c; d] => Some (be_value [a; b], be_value [c; d])
  | _ => None
  end.

Definition params (op : Z) (tr : list event) : list bytes :=
  map snd (filter (fun t => t.1 =? op) (transfers tr)).

(** The column ranges and page ranges a trace programs. *)
Definition col_ranges (tr : list event) : list (option (Z * Z)) :=
  map bounds (params _COLUMN_SET tr).
Definition page_ranges (tr : list event) : list (option (Z * Z)) :=
  map bounds (params _PAGE_SET tr).

Definition range_ok (limit : Z) (r : option (Z * Z)) : bool :=
  match r with
  | Some (lo, hi) => (0 <=? lo) && (lo <=? hi) && (hi <? limit)
  | None => false
  end.

(** Every window a trace programs satisfies
    [0 <= x0 <= x1 < width] and [0 <= y0 <= y1 < height]. *)
Definition windows_ok (tr : list event) : bool :=
  forallb (range_ok width) (col_ranges tr) &&
  forallb (range_ok height) (page_ranges tr).

(** The events of one [_data] call and of the command byte of [_write]. *)
Definition data_events (d : bytes) : list event :=
  [DcValue 1; CsValue 0; SpiWrite d; CsValue 1].
Definition cmd_events (c : Z) : list event :=
  [DcValue 0; CsValue 0; SpiWrite [byte_of_Z c]; CsValue 1].
Definition block_events (x0 y0 x1 y1 : Z) (d : bytes) : list event :=
  cmd_events _COLUMN_SET ++ data_events (pack_HH x0 x1) ++
  cmd_events _PAGE_SET ++ data_events (pack_HH y0 y1) ++
  cmd_events _RAM_WRITE ++ data_events d.

(** ** Vocabulary of the statements *)

(** The number of pixels of the clamped rectangle. *)
Definition area (x y w h : Z) : Z :=
  let '(_, _, w', h') := clamp x y w h in w' * h'.

(** The whole trace of a fill: the window with its empty first payload,
    the full chunks, the last chunk. *)
Definition fill_events (x y w h color : Z) : list event :=
  let '(x', y', w', h') := clamp x y w h in
  block_events x' y' (x' + w' - 1) (y' + h' - 1) [] ++
  concat (replicate (Z.to_nat (w' * h' / 512))
            (data_events (bytes_mul (pack_H color) 512))) ++
  data_events (bytes_mul (pack_H color) ((w' * h') mod 512)).

(** Clamping a value into an interval, as the specification words it. *)
Definition clamp_to (lo hi v : Z) : Z := Z.max lo (Z.min hi v).

(** The events of a 1x1 read at [(x, y)] that gets [reply] from the
    panel. *)
Definition read_events (x y : Z) (reply : bytes) : list event :=
  cmd_events _COLUMN_SET ++ data_events (pack_HH x x) ++
  cmd_events _PAGE_SET ++ data_events (pack_HH y y) ++
  [DcValue 0; CsValue 0; SpiWrite [byte_of_Z _RAM_READ]; SpiRead 3 reply;
   CsValue 1].

(** The flag values in the order the specification lists them:
    mirror-X, mirror-X + swap-axes, mirror-Y, mirror-X + mirror-Y +
    swap-axes. *)
Definition spec_rotation_flags : list Z := [0x40; 0x60; 0x80; 0xe0].

(** The flag values of the table in [set_rotation]:
    MX, MV, MY, MX|MY|MV. *)
Definition rotation_flags : list Z :=
  [_MADCTL_MX; _MADCTL_MV; _MADCTL_MY;
   Z.lor (Z.lor _MADCTL_MX _MADCTL_MY) _MADCTL_MV].

(** [flags] describes [set_rotation] when every call writes, as its one
    parameter to the memory-access-control register, the entry
    [value mod 4] of [flags] or-ed with the mode. *)
Definition rotation_writes (flags : list Z) (value : Z) (s : state) : Prop :=
  map be_value (params _MADCTL (trace (set_rotation value s))) =
  [Z.lor (nth (Z.to_nat (value mod 4)) flags 0) (mode (self s))].

(** The pixel data [char] sends for a glyph. *)
Definition glyph_data (framebuf_text : string -> nat -> byte) (ch : string)
    (color background : Z) : bytes :=
  match char_data (map (framebuf_text ch) (seq 0 8))
                  (pack_H color) (pack_H background) with
  | Ok data => data
  | Raise _ => []
  end.

(** A method that only talks to the hardware: it returns, raises nothing
    and leaves the driver state alone. *)
Definition io_only (m : M unit) : Prop :=
  forall s, exists t, m s = (Ok tt, s, t).

(** *** Bus discipline

    What the panel's serial interface is doing while a trace is replayed:
    deselected, selected with nothing sent yet, one write sent, or a
    read-back sent after the write. *)
Inductive bus_state := Idle | Selected | Written | ReadBack.

Definition bus_step (st : bus_state) (e : event) : option bus_state :=
  match st, e with
  | Idle, (CsValue v | CsInit v) => Some (if v =? 0 then Selected else Idle)
  | Idle, (DcValue _ | DcInit _ | RstValue _ | RstInit _ | SleepMs _) => Some Idle
  | Selected, SpiWrite _ => Some Written
  | Written, SpiRead _ _ => Some ReadBack
  | (Written | ReadBack), CsValue v => if v =? 0 then None else Some Idle
  | _, _ => None
  end.

(** A trace keeps the discipline from [st] when every chip-select window
    holds exactly one write, followed by at most one read; the
    data/command line, the reset line and the clock of [sleep_ms] only
    move while the panel is deselected; and the panel is deselected at
    the end. *)
Fixpoint bus_ok (st : bus_state) (tr : list event) : bool :=
  match tr with
  | [] => match st with Idle => true | _ => false end
  | e :: tr' =>
      match bus_step st e with
      | Some st' => bus_ok st' tr'
      | None => false
      end
  end.

Definition disciplined {A} (m : M A) : Prop :=
  forall s, bus_ok Idle (trace (m s)) = true.

(** *** Pixel buffers

    The two bytes of pixel [(r, c)] in a row-major buffer of
    [row_pixels] two-byte pixels per row. *)
Definition pixel_at (data : bytes) (row_pixels r c : nat) : bytes :=
  take 2 (drop (2 * (r * row_pixels + c)) data).

(** One store of the glyph loops: the byte offset and the packed colour. *)
Definition put_cell (data : bytes) (cell : Z * bytes) : result bytes :=
  put_pixel data cell.1 cell.2.

(** No two of the offsets are the same pixel or overlap. *)
Fixpoint apart (offsets : list Z) : bool :=
  match offsets with
  | [] => true
  | i :: rest => forallb (fun j => (i + 1 <? j) || (j + 1 <? i)) rest && apart rest
  end.

(** The stores of [char]'s loops, in the order the loops make them:
    column by column, and top to bottom inside a column. *)
Definition char_cells (buffer color background : bytes) : list (Z * bytes) :=
  concat (map (fun cb : Z * Z =>
                 map (fun r => (r * 8 * 2 + cb.1 * 2,
                                if Z.land cb.2 (Z.shiftl 1 r) =? 0
                                then background else color))
                     (range 8))
              (enumerate buffer)).

(** The integer at index [i] of a glyph, 0 where the glyph has no such
    byte. *)
Definition glyph_value (glyph : bytes) (i : Z) : Z :=
  match glyph !! Z.to_nat i with
  | Some b => Z_of_byte b
  | None => 0
  end.

(** Bit of pixel [(r, c)] in a column-major glyph of [gbytes] bytes per
    column, least significant bit first. *)
Definition glyph_bit (glyph : bytes) (gbytes : Z) (r c : nat) : bool :=
  Z.testbit (glyph_value glyph (Z.of_nat c * gbytes + Z.of_nat r / 8))
            (Z.of_nat r mod 8).

(** *** Windows, transfer by transfer *)

(** A data transfer is fine when it is not a column or page range, or is
    one that lies on the panel. *)
Definition item_ok (t : Z * bytes) : bool :=
  if t.1 =? _COLUMN_SET then range_ok width (bounds t.2)
  else if t.1 =? _PAGE_SET then range_ok height (bounds t.2)
  else true.

(** A trace programs only windows on the panel, whatever the panel was
    doing before it. *)
Definition safe (tr : list event) : Prop :=
  forall dc cs cmd, forallb item_ok (scan dc cs cmd tr) = true.

(** The blits of a run of characters of the built-in font on one line,
    8 pixels apart. *)
Fixpoint line_events (framebuf_text : string -> nat -> byte)
    (color background y : Z) (chars : list ascii) (tx : Z) : list event :=
  match chars with
  | [] => []
  | ch :: rest =>
      block_events tx y (tx + 7) (y + 7)
        (glyph_data framebuf_text (String ch EmptyString) color background) ++
      line_events framebuf_text color background y rest (tx + 8)
  end.

(** * Properties *)

(** ** Bytes *)

Lemma Z_of_byte_range (b : byte) : 0 <= Z_of_byte b < 256.
Proof.
  unfold Z_of_byte. pose proof (Byte.to_N_bounded b). lia.
Qed.

Lemma Z_of_byte_of_Z (z : Z) : Z_of_byte (byte_of_Z z) = z mod 256.
Proof.
  unfold Z_of_byte, byte_of_Z.
  pose proof (Z.mod_pos_bound z 256 ltac:(lia)) as Hm.
  destruct (Byte.of_N (Z.to_N (z mod 256))) as [b|] eqn:E.
  - apply Byte.to_of_N in E. rewrite E. lia.
  - apply Byte.of_N_None_iff in E. lia.
Qed.

Lemma be_value_pack_H (v : Z) : be_value (pack_H v) = v mod 65536.
Proof.
  unfold be_value, pack_H. simpl.
  rewrite !Z_of_byte_of_Z, Z.shiftr_div_pow2 by lia.
  change (2 ^ 8) with 256.
  Z.to_euclidean_division_equations. lia.
Qed.

Lemma be_value_pack_H_small (v : Z) : 0 <= v < 65536 -> be_value (pack_H v) = v.
Proof.
  intros H. rewrite be_value_pack_H. apply Z.mod_small. lia.
Qed.

Lemma bounds_pack_HH (a b : Z) :
  bounds (pack_HH a b) = Some (a mod 65536, b mod 65536).
Proof.
  rewrite <- (be_value_pack_H a), <- (be_value_pack_H b). reflexivity.
Qed.

Lemma length_bytes_mul_pack_H (c n : Z) :
  0 <= n -> Z.of_nat (length (bytes_mul (pack_H c) n)) = 2 * n.
Proof.
  intros Hn. unfold bytes_mul.
  assert (H : forall k, length (concat (replicate k (pack_H c))) = (2 * k)%nat).
  { induction k as [|k IH]; simpl; [reflexivity|]. rewrite IH. lia. }
  rewrite H. lia.
Qed.

(** ** Running the primitives *)

Lemma _data_run (d : bytes) (s : state) :
  _data d s = (Ok tt, s, data_events d).
Proof. reflexivity. Qed.

Lemma _write_run (c : Z) (d : bytes) (s : state) :
  _write c (Some d) s = (Ok tt, s, cmd_events c ++ data_events d).
Proof. reflexivity. Qed.

Lemma _block_write_run miso (x0 y0 x1 y1 : Z) (d : bytes) (s : state) :
  _block miso x0 y0 x1 y1 (Some d) s = (Ok None, s, block_events x0 y0 x1 y1 d).
Proof. reflexivity. Qed.

Lemma for_each_data_run (l : list Z) (d : bytes) (s : state) :
  for_each l (fun _ => _data d) s =
  (Ok tt, s, concat (replicate (length l) (data_events d))).
Proof.
  induction l as [|a l IH]; [reflexivity|].
  simpl for_each. unfold bind. rewrite _data_run, IH. reflexivity.
Qed.

Lemma length_range (n : Z) : length (range n) = Z.to_nat n.
Proof. unfold range. now rewrite length_map, length_seq. Qed.

(** ** Replaying a trace *)

Lemma scan_cmd (dc cs : Z) (cmd : option Z) (c : Z) (tr : list event) :
  scan dc cs cmd (cmd_events c ++ tr) = scan 0 1 (Some (c mod 256)) tr.
Proof. simpl. now rewrite Z_of_byte_of_Z. Qed.

Lemma scan_data (dc cs op : Z) (d : bytes) (tr : list event) :
  scan dc cs (Some op) (data_events d ++ tr) = (op, d) :: scan 1 1 (Some op) tr.
Proof. reflexivity. Qed.

Lemma scan_data_chunks (dc cs op : Z) (d : bytes) (k : nat) (tr : list event) :
  scan dc cs (Some op) (concat (replicate k (data_events d)) ++ tr) =
  replicate k (op, d) ++ scan (if k is O then dc else 1) (if k is O then cs else 1)
                              (Some op) tr.
Proof.
  revert dc cs. induction k as [|k IH]; intros dc cs; [reflexivity|].
  cbn [replicate concat]. rewrite <- app_assoc, scan_data, IH.
  cbn [replicate app]. f_equal. f_equal. now destruct k.
Qed.

Lemma transfers_block (x0 y0 x1 y1 : Z) (d : bytes) (tr : list event) :
  transfers (block_events x0 y0 x1 y1 d ++ tr) =
  (_COLUMN_SET, pack_HH x0 x1) :: (_PAGE_SET, pack_HH y0 y1) ::
  (_RAM_WRITE, d) :: scan 1 1 (Some _RAM_WRITE) tr.
Proof.
  unfold transfers, block_events.
  repeat rewrite <- app_assoc.
  rewrite scan_cmd, scan_data, scan_cmd, scan_data, scan_cmd, scan_data.
  reflexivity.
Qed.

(** ** [fill_rectangle] *)

Lemma clamp_bounds (x y w h x' y' w' h' : Z) :
  clamp x y w h = (x', y', w', h') ->
  0 <= x' <= width - 1 /\ 0 <= y' <= height - 1 /\
  1 <= w' <= width - x' /\ 1 <= h' <= height - y'.
Proof.
  unfold clamp, width, height. intros H. injection H as <- <- <- <-. lia.
Qed.

Lemma area_bounds (x y w h : Z) : 1 <= area x y w h <= width * height.
Proof.
  unfold area. destruct (clamp x y w h) as [[[x' y'] w'] h'] eqn:E.
  apply clamp_bounds in E. unfold width, height in *. nia.
Qed.

Lemma fill_rectangle_run miso (x y w h color : Z) (s : state) :
  fill_rectangle miso x y w h color s = (Ok tt, s, fill_events x y w h color).
Proof.
  unfold fill_rectangle, fill_events.
  destruct (clamp x y w h) as [[[x' y'] w'] h'].
  unfold bind at 1. rewrite _block_write_run.
  unfold bind at 1.
  destruct (w' * h' / 512 =? 0) eqn:E.
  - apply Z.eqb_eq in E. rewrite E. reflexivity.
  - rewrite for_each_data_run, length_range, _data_run. reflexivity.
Qed.

Lemma transfers_fill (x y w h color : Z) :
  transfers (fill_events x y w h color) =
  let '(x', y', w', h') := clamp x y w h in
  [(_COLUMN_SET, pack_HH x' (x' + w' - 1));
   (_PAGE_SET, pack_HH y' (y' + h' - 1));
   (_RAM_WRITE, [])] ++
  replicate (Z.to_nat (w' * h' / 512)) (_RAM_WRITE, bytes_mul (pack_H color) 512) ++
  [(_RAM_WRITE, bytes_mul (pack_H color) ((w' * h') mod 512))].
Proof.
  unfold fill_events. destruct (clamp x y w h) as [[[x' y'] w'] h'].
  rewrite transfers_block, scan_data_chunks.
  rewrite <- (app_nil_r (data_events _)), scan_data. reflexivity.
Qed.

Lemma filter_replicate_ne (op op' : Z) (d : bytes) (k : nat) :
  op' <> op ->
  filter (fun t : Z * bytes => t.1 =? op) (replicate k (op', d)) = [].
Proof.
  intros Hne. induction k as [|k IH]; [reflexivity|].
  cbn [replicate]. rewrite filter_cons. simpl.
  destruct (Z.eqb_spec op' op); [contradiction|]. exact IH.
Qed.

Arguments bounds : simpl never.
Arguments pack_HH : simpl never.
Arguments pack_H : simpl never.
Arguments bytes_mul : simpl never.

Lemma ranges_fill (x y w h color : Z) :
  let '(x', y', w', h') := clamp x y w h in
  col_ranges (fill_events x y w h color) = [Some (x', x' + w' - 1)] /\
  page_ranges (fill_events x y w h color) = [Some (y', y' + h' - 1)].
Proof.
  unfold col_ranges, page_ranges, params. rewrite transfers_fill.
  destruct (clamp x y w h) as [[[x' y'] w'] h'] eqn:E.
  apply clamp_bounds in E. unfold width, height in E.
  split.
  - cbn [app]. rewrite !filter_cons. simpl.
    rewrite filter_app, filter_replicate_ne by discriminate. simpl.
    rewrite bounds_pack_HH, !Z.mod_small by lia. reflexivity.
  - cbn [app]. rewrite !filter_cons. simpl.
    rewrite filter_app, filter_replicate_ne by discriminate. simpl.
    rewrite bounds_pack_HH, !Z.mod_small by lia. reflexivity.
Qed.

Lemma windows_ok_fill (x y w h color : Z) :
  windows_ok (fill_events x y w h color) = true.
Proof.
  unfold windows_ok. pose proof (ranges_fill x y w h color) as H.
  destruct (clamp x y w h) as [[[x' y'] w'] h'] eqn:E.
  destruct H as [-> ->]. apply clamp_bounds in E.
  simpl. rewrite !andb_true_r, !andb_true_iff.
  rewrite !Z.leb_le, !Z.ltb_lt. lia.
Qed.

Lemma params_fill (x y w h color : Z) :
  params _RAM_WRITE (fill_events x y w h color) =
  [] :: replicate (Z.to_nat (area x y w h / 512)) (bytes_mul (pack_H color) 512) ++
  [bytes_mul (pack_H color) (area x y w h mod 512)].
Proof.
  unfold params, area. rewrite transfers_fill.
  destruct (clamp x y w h) as [[[x' y'] w'] h'].
  cbn [app]. rewrite !filter_cons. simpl.
  rewrite filter_app, map_app. simpl. f_equal. f_equal.
  induction (Z.to_nat (w' * h' / 512)) as [|k IH]; [reflexivity|].
  cbn [replicate]. rewrite filter_cons. simpl. now rewrite IH.
Qed.

Lemma fill_events_tail (x y w h color : Z) :
  exists pre, fill_events x y w h color =
              pre ++ data_events (bytes_mul (pack_H color) (area x y w h mod 512)).
Proof.
  unfold fill_events, area. destruct (clamp x y w h) as [[[x' y'] w'] h'].
  eexists. rewrite app_assoc. reflexivity.
Qed.

(** C4: a fill of [n] clamped pixels sends, after the empty payload that
    opens the RAM write, [n / 512] data transfers of 512 packed colours
    (1024 bytes) and then one transfer of [n mod 512] packed colours; a
    fill of 1000 pixels ends with a transfer of 488 pixels. *)
Theorem fill_rectangle_chunks miso (x y w h color : Z) (s : state) :
  outcome (fill_rectangle miso x y w h color s) = Ok tt /\
  params _RAM_WRITE (trace (fill_rectangle miso x y w h color s)) =
    [] :: replicate (Z.to_nat (area x y w h / 512)) (bytes_mul (pack_H color) 512) ++
    [bytes_mul (pack_H color) (area x y w h mod 512)] /\
  Z.of_nat (length (bytes_mul (pack_H color) 512)) = 1024 /\
  Z.of_nat (length (bytes_mul (pack_H color) (area x y w h mod 512))) =
    2 * (area x y w h mod 512) /\
  0 <= area x y w h mod 512 < 512 /\
  area 0 0 100 10 = 1000 /\
  last (params _RAM_WRITE (trace (fill_rectangle miso 0 0 100 10 color s))) =
    Some (bytes_mul (pack_H color) 488).
Proof.
  rewrite !fill_rectangle_run. unfold outcome, trace. cbn [fst snd].
  pose proof (Z.mod_pos_bound (area x y w h) 512 ltac:(lia)) as Hm.
  split; [reflexivity|]. split; [apply params_fill|].
  split; [now rewrite length_bytes_mul_pack_H|].
  split; [rewrite length_bytes_mul_pack_H; lia|].
  split; [exact Hm|]. split; [reflexivity|].
  rewrite params_fill.
  change (area 0 0 100 10 mod 512) with 488.
  change (?a :: ?l ++ [?b]) with ((a :: l) ++ [b]).
  now rewrite last_snoc.
Qed.

(** C5: [fill_rectangle] clamps [x] into [0, width-1], [y] into
    [0, height-1], [w] and [h] between 1 and the space that remains, and
    programs exactly that window, which is in bounds;
    [fill_rectangle(-5, -5, 10, 10, c)] programs (0,0)-(9,9). *)
Theorem fill_rectangle_clamps miso (x y w h color : Z) (s : state) :
  (let '(x', y', w', h') := clamp x y w h in
   x' = clamp_to 0 (width - 1) x /\ y' = clamp_to 0 (height - 1) y /\
   w' = clamp_to 1 (width - x') w /\ h' = clamp_to 1 (height - y') h /\
   0 <= x' <= width - 1 /\ 0 <= y' <= height - 1 /\
   1 <= w' <= width - x' /\ 1 <= h' <= height - y' /\
   col_ranges (trace (fill_rectangle miso x y w h color s)) =
     [Some (x', x' + w' - 1)] /\
   page_ranges (trace (fill_rectangle miso x y w h color s)) =
     [Some (y', y' + h' - 1)]) /\
  windows_ok (trace (fill_rectangle miso x y w h color s)) = true /\
  col_ranges (trace (fill_rectangle miso (-5) (-5) 10 10 color s)) = [Some (0, 9)] /\
  page_ranges (trace (fill_rectangle miso (-5) (-5) 10 10 color s)) = [Some (0, 9)].
Proof.
  rewrite !fill_rectangle_run. unfold trace. cbn [snd].
  split; [|split].
  - pose proof (ranges_fill x y w h color) as H.
    destruct (clamp x y w h) as [[[x' y'] w'] h'] eqn:E.
    destruct H as [Hc Hp]. pose proof (clamp_bounds _ _ _ _ _ _ _ _ E) as Hb.
    unfold clamp in E. injection E as Hx Hy Hw Hh.
    unfold clamp_to, width, height in *. repeat split; try assumption; lia.
  - apply windows_ok_fill.
  - exact (ranges_fill (-5) (-5) 10 10 color).
Qed.

(** C10: when the clamped pixel count [n] is a multiple of 512, the
    trace of [fill_rectangle] is the window with its empty opening
    payload, then the [n / 512] (at least one) full chunks of 512 pixels,
    and after them one more data transfer whose payload is empty,
    chip-select toggled around it; [fill] over the whole 320x240 screen
    always ends so, after its 150 full chunks. *)
Theorem fill_rectangle_empty_tail miso (x y w h color : Z) (s : state) :
  (area x y w h mod 512 = 0 ->
   1 <= area x y w h / 512 /\
   trace (fill_rectangle miso x y w h color s) =
     (let '(x', y', w', h') := clamp x y w h in
      block_events x' y' (x' + w' - 1) (y' + h' - 1) []) ++
     concat (replicate (Z.to_nat (area x y w h / 512))
               (data_events (bytes_mul (pack_H color) 512))) ++
     [DcValue 1; CsValue 0; SpiWrite []; CsValue 1] /\
   params _RAM_WRITE (trace (fill_rectangle miso x y w h color s)) =
     [] :: replicate (Z.to_nat (area x y w h / 512))
             (bytes_mul (pack_H color) 512) ++ [[]]) /\
  trace (fill miso color s) =
    block_events 0 0 (width - 1) (height - 1) [] ++
    concat (replicate 150 (data_events (bytes_mul (pack_H color) 512))) ++
    [DcValue 1; CsValue 0; SpiWrite []; CsValue 1] /\
  params _RAM_WRITE (trace (fill miso color s)) =
    [] :: replicate 150 (bytes_mul (pack_H color) 512) ++ [[]].
Proof.
  assert (G : forall x y w h, area x y w h mod 512 = 0 ->
    1 <= area x y w h / 512 /\
    trace (fill_rectangle miso x y w h color s) =
      (let '(x', y', w', h') := clamp x y w h in
       block_events x' y' (x' + w' - 1) (y' + h' - 1) []) ++
      concat (replicate (Z.to_nat (area x y w h / 512))
                (data_events (bytes_mul (pack_H color) 512))) ++
      [DcValue 1; CsValue 0; SpiWrite []; CsValue 1] /\
    params _RAM_WRITE (trace (fill_rectangle miso x y w h color s)) =
      [] :: replicate (Z.to_nat (area x y w h / 512))
              (bytes_mul (pack_H color) 512) ++ [[]]).
  { clear. intros x y w h H. pose proof (area_bounds x y w h) as Ha.
    split; [|split].
    - pose proof (Z.div_mod (area x y w h) 512 ltac:(lia)) as Hd.
      rewrite H in Hd. lia.
    - rewrite fill_rectangle_run. unfold trace. cbn [snd].
      unfold fill_events, area in *.
      destruct (clamp x y w h) as [[[x' y'] w'] h']. rewrite H. reflexivity.
    - rewrite fill_rectangle_run. unfold trace. cbn [snd].
      rewrite params_fill, H. reflexivity. }
  split; [apply G|].
  destruct (G 0 0 width height eq_refl) as (_ & Ht & Hp).
  split; [exact Ht|exact Hp].
Qed.

Lemma fill_rectangle_empty_tail_witness :
  area 0 0 32 16 mod 512 = 0 /\
  params _RAM_WRITE
    (trace (fill_rectangle (fun _ => x00) 0 0 32 16 0xffff
              {| self := {| mode := _MADCTL_BGR; _scroll := 0 |}; rx := 0 |})) =
  [] :: replicate (Z.to_nat (area 0 0 32 16 / 512))
          (bytes_mul (pack_H 0xffff) 512) ++ [[]].
Proof.
  split; [reflexivity|].
  apply (proj1 (fill_rectangle_empty_tail (fun _ => x00) 0 0 32 16 0xffff
                  {| self := {| mode := _MADCTL_BGR; _scroll := 0 |}; rx := 0 |})
               eq_refl).
Defined.

(** ** [pixel] *)

Lemma pixel_write_skip miso (x y color : Z) (s : state) :
  ~ (0 <= x < width) \/ ~ (0 <= y < height) ->
  pixel miso x y (Some color) s = (Ok None, s, []).
Proof.
  intros H. unfold pixel.
  replace (negb ((0 <=? x) && (x <? width)) || negb ((0 <=? y) && (y <? height)))
    with true; [reflexivity|].
  symmetry. apply orb_true_iff.
  destruct H as [H|H]; [left|right]; apply negb_true_iff, andb_false_iff;
    rewrite Z.leb_gt, Z.ltb_ge; lia.
Qed.

(** C6: a pixel write outside the panel transfers nothing, raises nothing
    and leaves the state as it was. *)
Theorem pixel_write_out_of_range miso (x y color : Z) (s : state) :
  ~ (0 <= x < width) \/ ~ (0 <= y < height) ->
  pixel miso x y (Some color) s = (Ok None, s, []) /\
  trace (pixel miso x y (Some color) s) = [] /\
  final (pixel miso x y (Some color) s) = s.
Proof.
  intros H. rewrite pixel_write_skip by exact H. auto.
Qed.

Lemma pixel_write_out_of_range_witness :
  pixel (fun _ => x00) 400 10 (Some 0xffff)
        {| self := {| mode := _MADCTL_BGR; _scroll := 0 |}; rx := 0 |} =
  (Ok None, {| self := {| mode := _MADCTL_BGR; _scroll := 0 |}; rx := 0 |}, []).
Proof.
  refine (proj1 (pixel_write_out_of_range (fun _ => x00) 400 10 0xffff _ _)).
  left. unfold width. lia.
Defined.

Lemma pixel_write_run miso (x y color : Z) (s : state) :
  0 <= x < width -> 0 <= y < height ->
  pixel miso x y (Some color) s =
  (Ok None, s, block_events x y x y (pack_H color)).
Proof.
  intros Hx Hy. unfold pixel.
  replace (negb ((0 <=? x) && (x <? width)) || negb ((0 <=? y) && (y <? height)))
    with false; [reflexivity|].
  symmetry. apply orb_false_iff.
  split; apply negb_false_iff, andb_true_iff; rewrite Z.leb_le, Z.ltb_lt; lia.
Qed.

Lemma _block_read_pixel_run miso (x y : Z) (s : state) :
  _block miso x y x y None s =
  (Ok (Some [miso (rx s); miso (S (rx s)); miso (S (S (rx s)))]),
   {| self := self s; rx := rx s + 3 |},
   read_events x y [miso (rx s); miso (S (rx s)); miso (S (S (rx s)))]).
Proof.
  unfold _block, _read, spi_read, bind, emit, ret, _write, _data, read_events.
  replace ((x - x + 1) * (y - y + 1) * 3) with 3 by lia.
  reflexivity.
Qed.

Lemma land_256_bound (a : Z) : 0 <= a -> 0 <= Z.land a 0xffff < 65536.
Proof.
  intros Ha. change 0xffff with (Z.ones 16).
  rewrite Z.land_ones by lia. apply Z.mod_pos_bound. lia.
Qed.

(** Checking a property of one byte value on all 256 of them. *)
Lemma byte_cases (P : Z -> bool) :
  forallb P (range 256) = true -> forall v, 0 <= v < 256 -> P v = true.
Proof.
  intros H v Hv. rewrite forallb_forall in H. apply H.
  unfold range. apply in_map_iff. exists (Z.to_nat v). split; [lia|].
  apply in_seq. lia.
Qed.

Ltac byte_fact v :=
  apply Z.eqb_eq;
  match goal with
  | |- ?e = true =>
      let f := eval pattern v in e in
      match f with
      | ?g v => apply (byte_cases g); [vm_compute; reflexivity | lia]
      end
  end.

(** ** [color565] *)

Lemma red_of_red (r : Z) : 0 <= r < 256 ->
  Z.shiftl (Z.land (Z.shiftr (Z.shiftl (Z.land r 0xf8) 8) 11) 0x1f) 3 = Z.land r 0xf8.
Proof. intros H. byte_fact r. Qed.

Lemma red_of_green (g : Z) : 0 <= g < 256 ->
  Z.land (Z.shiftr (Z.shiftl (Z.land g 0xfc) 3) 11) 0x1f = 0.
Proof. intros H. byte_fact g. Qed.

Lemma red_of_blue (b : Z) : 0 <= b < 256 ->
  Z.land (Z.shiftr (Z.shiftr b 3) 11) 0x1f = 0.
Proof. intros H. byte_fact b. Qed.

Lemma green_of_red (r : Z) : 0 <= r < 256 ->
  Z.land (Z.shiftr (Z.shiftl (Z.land r 0xf8) 8) 5) 0x3f = 0.
Proof. intros H. byte_fact r. Qed.

Lemma green_of_green (g : Z) : 0 <= g < 256 ->
  Z.shiftl (Z.land (Z.shiftr (Z.shiftl (Z.land g 0xfc) 3) 5) 0x3f) 2 = Z.land g 0xfc.
Proof. intros H. byte_fact g. Qed.

Lemma green_of_blue (b : Z) : 0 <= b < 256 ->
  Z.land (Z.shiftr (Z.shiftr b 3) 5) 0x3f = 0.
Proof. intros H. byte_fact b. Qed.

Lemma blue_of_red (r : Z) : 0 <= r < 256 ->
  Z.land (Z.shiftl (Z.land r 0xf8) 8) 0x1f = 0.
Proof. intros H. byte_fact r. Qed.

Lemma blue_of_green (g : Z) : 0 <= g < 256 ->
  Z.land (Z.shiftl (Z.land g 0xfc) 3) 0x1f = 0.
Proof. intros H. byte_fact g. Qed.

Lemma blue_of_blue (b : Z) : 0 <= b < 256 ->
  Z.shiftl (Z.land (Z.shiftr b 3) 0x1f) 3 = Z.land b 0xf8.
Proof. intros H. byte_fact b. Qed.

(** C3: for channels in 0..255 the fields of [color565 r g b], shifted
    back to their place in a byte, are the inputs masked to 5, 6 and 5
    bits. *)
Theorem color565_fields (r g b : Z) :
  0 <= r <= 255 -> 0 <= g <= 255 -> 0 <= b <= 255 ->
  Z.shiftl (red565 (color565 r g b)) 3 = Z.land r 0xf8 /\
  Z.shiftl (green565 (color565 r g b)) 2 = Z.land g 0xfc /\
  Z.shiftl (blue565 (color565 r g b)) 3 = Z.land b 0xf8.
Proof.
  intros Hr Hg Hb. unfold red565, green565, blue565, color565.
  rewrite !Z.shiftr_lor, !Z.land_lor_distr_l.
  rewrite red_of_green, red_of_blue, green_of_red, green_of_blue,
    blue_of_red, blue_of_green by lia.
  rewrite !Z.lor_0_r, !Z.lor_0_l.
  rewrite red_of_red, green_of_green, blue_of_blue by lia.
  auto.
Qed.

Lemma color565_fields_witness :
  Z.shiftl (red565 (color565 0xf8 0xfc 0xf8)) 3 = 0xf8 /\
  Z.shiftl (green565 (color565 0xf8 0xfc 0xf8)) 2 = 0xfc /\
  Z.shiftl (blue565 (color565 0xf8 0xfc 0xf8)) 3 = 0xf8.
Proof.
  apply (color565_fields 0xf8 0xfc 0xf8); lia.
Defined.

Lemma color565_16bit (r g b : Z) :
  0 <= r < 256 -> 0 <= g < 256 -> 0 <= b < 256 ->
  0 <= color565 r g b < 65536.
Proof.
  intros Hr Hg Hb.
  assert (H1 : Z.land (Z.shiftl (Z.land r 0xf8) 8) 0xffff = Z.shiftl (Z.land r 0xf8) 8)
    by byte_fact r.
  assert (H2 : Z.land (Z.shiftl (Z.land g 0xfc) 3) 0xffff = Z.shiftl (Z.land g 0xfc) 3)
    by byte_fact g.
  assert (H3 : Z.land (Z.shiftr b 3) 0xffff = Z.shiftr b 3) by byte_fact b.
  assert (E : Z.land (color565 r g b) 0xffff = color565 r g b).
  { unfold color565. now rewrite !Z.land_lor_distr_l, H1, H2, H3. }
  rewrite <- E. apply land_256_bound.
  unfold color565. rewrite !Z.lor_nonneg, !Z.shiftl_nonneg, Z.shiftr_nonneg,
    !Z.land_nonneg. lia.
Qed.

Lemma pixel_read_run miso (x y : Z) (s : state) :
  pixel miso x y None s =
    (Ok (Some (color565 (Z_of_byte (miso (rx s)))
                        (Z_of_byte (miso (S (S (rx s)))))
                        (Z_of_byte (miso (S (rx s)))))),
     {| self := self s; rx := rx s + 3 |},
     read_events x y [miso (rx s); miso (S (rx s)); miso (S (S (rx s)))]).
Proof.
  unfold pixel, bind. rewrite _block_read_pixel_run. reflexivity.
Qed.

(** C7: [pixel(x, y)] programs the window (x,y)-(x,y), asks for 3 bytes,
    takes them as red, blue, green in that order and returns
    [color565(red, green, blue)], a 16-bit value. *)
Theorem pixel_read miso (x y : Z) (s : state) :
  pixel miso x y None s =
    (Ok (Some (color565 (Z_of_byte (miso (rx s)))
                        (Z_of_byte (miso (S (S (rx s)))))
                        (Z_of_byte (miso (S (rx s)))))),
     {| self := self s; rx := rx s + 3 |},
     cmd_events _COLUMN_SET ++ data_events (pack_HH x x) ++
     cmd_events _PAGE_SET ++ data_events (pack_HH y y) ++
     [DcValue 0; CsValue 0; SpiWrite [byte_of_Z _RAM_READ];
      SpiRead 3 [miso (rx s); miso (S (rx s)); miso (S (S (rx s)))];
      CsValue 1]) /\
  transfers (trace (pixel miso x y None s)) =
    [(_COLUMN_SET, pack_HH x x); (_PAGE_SET, pack_HH y y)] /\
  0 <= color565 (Z_of_byte (miso (rx s)))
                (Z_of_byte (miso (S (S (rx s)))))
                (Z_of_byte (miso (S (rx s)))) < 65536.
Proof.
  split; [apply pixel_read_run|]. split.
  - rewrite pixel_read_run. unfold trace, read_events, transfers. cbn [snd].
    rewrite scan_cmd, scan_data, scan_cmd, scan_data. reflexivity.
  - apply color565_16bit; apply Z_of_byte_range.
Qed.

(** ** [scroll] *)

(** C8: [scroll()] returns the stored offset and writes nothing;
    [scroll(dy)] stores [(offset + dy) mod height], which lies in
    [0, height-1], and writes it big-endian on two bytes to the
    vertical-scroll-start register; from 0, [scroll(250)] stores 10. *)
Theorem scroll_wraps (dy : Z) (s : state) :
  scroll None s = (Ok (Some (_scroll (self s))), s, []) /\
  scroll (Some dy) s =
    (Ok None,
     {| self := {| mode := mode (self s);
                   _scroll := (_scroll (self s) + dy) mod height |};
        rx := rx s |},
     cmd_events _LINE_SET ++
     data_events (pack_H ((_scroll (self s) + dy) mod height))) /\
  transfers (trace (scroll (Some dy) s)) =
    [(_LINE_SET, pack_H ((_scroll (self s) + dy) mod height))] /\
  be_value (pack_H ((_scroll (self s) + dy) mod height)) =
    (_scroll (self s) + dy) mod height /\
  0 <= _scroll (self (final (scroll (Some dy) s))) <= height - 1 /\
  _scroll (self (final (scroll (Some 250)
                          {| self := {| mode := mode (self s); _scroll := 0 |};
                             rx := rx s |}))) = 10.
Proof.
  pose proof (Z.mod_pos_bound (_scroll (self s) + dy) height ltac:(reflexivity)) as Hm.
  unfold height in Hm.
  split; [reflexivity|]. split; [reflexivity|]. split.
  - unfold trace, transfers. cbn [scroll bind get_self set_scroll snd fst].
    change (scan 0 1 None (cmd_events _LINE_SET ++
              data_events (pack_H ((_scroll (self s) + dy) mod height)) ++ []) =
            [(_LINE_SET, pack_H ((_scroll (self s) + dy) mod height))]).
    rewrite scan_cmd, scan_data. reflexivity.
  - split; [apply be_value_pack_H_small; unfold height; lia|].
    split; [|reflexivity].
    unfold final, scroll, bind. simpl. unfold height. lia.
Qed.

(** The offset stays in range through any sequence of [scroll] calls made
    on a state that has it in range, as the constructor leaves it. *)
Lemma scroll_invariant (dys : list (option Z)) (s : state) :
  0 <= _scroll (self s) < height ->
  0 <= _scroll (self (fold_left (fun s dy => final (scroll dy s)) dys s)) < height.
Proof.
  revert s. induction dys as [|dy dys IH]; intros s H; [exact H|].
  simpl fold_left. apply IH. destruct dy as [dy|]; [|exact H].
  pose proof (Z.mod_pos_bound (_scroll (self s) + dy) height ltac:(reflexivity)).
  unfold final, scroll, bind. simpl. lia.
Qed.

(** ** [set_rotation] *)

Lemma set_rotation_run (value : Z) (s : state) :
  set_rotation value s =
  (Ok tt, s,
   cmd_events _MADCTL ++
   data_events (pack_H (Z.lor (nth (Z.to_nat (value mod 4)) rotation_flags 0)
                              (mode (self s))))).
Proof.
  pose proof (Z.mod_pos_bound value 4 ltac:(lia)) as Hm.
  unfold set_rotation, bind, get_self.
  assert (H : value mod 4 = 0 \/ value mod 4 = 1 \/ value mod 4 = 2 \/
              value mod 4 = 3) by lia.
  destruct H as [-> | [-> | [-> | ->]]]; reflexivity.
Qed.

(** C2, as the code has it: for every integer [value], [set_rotation]
    writes to the memory-access-control register the two-byte big-endian
    payload of entry [value mod 4] of (MX, MV, MY, MX|MY|MV), that is
    (0x40, 0x20, 0x80, 0xE0), or-ed with the mode; rotation 1 in BGR mode
    writes 0x20 | 0x08. *)
Theorem set_rotation_payload (value : Z) (s : state) :
  rotation_flags = [0x40; 0x20; 0x80; 0xe0] /\
  set_rotation value s =
    (Ok tt, s,
     cmd_events _MADCTL ++
     data_events (pack_H (Z.lor (nth (Z.to_nat (value mod 4)) rotation_flags 0)
                                (mode (self s))))) /\
  transfers (trace (set_rotation value s)) =
    [(_MADCTL, pack_H (Z.lor (nth (Z.to_nat (value mod 4)) rotation_flags 0)
                             (mode (self s))))] /\
  be_value (pack_H (Z.lor (nth (Z.to_nat (value mod 4)) rotation_flags 0)
                          (mode (self s)))) =
    Z.lor (nth (Z.to_nat (value mod 4)) rotation_flags 0) (mode (self s))
    mod 65536 /\
  map be_value
    (params _MADCTL
       (trace (set_rotation 1 {| self := {| mode := _MADCTL_BGR;
                                            _scroll := _scroll (self s) |};
                                 rx := rx s |}))) =
    [Z.lor 0x20 0x08].
Proof.
  split; [reflexivity|]. split; [apply set_rotation_run|]. split.
  - rewrite set_rotation_run. unfold trace, transfers. cbn [snd].
    rewrite scan_cmd, <- (app_nil_r (data_events _)), scan_data. reflexivity.
  - split; [apply be_value_pack_H|]. vm_compute. reflexivity.
Qed.

(** C2 as stated fails: with the listed values (0x40, 0x60, 0x80, 0xE0),
    rotation 1 in BGR mode would write 0x68, and the driver writes 0x28. *)
Lemma set_rotation_not_spec_flags :
  ~ rotation_writes spec_rotation_flags 1
      {| self := {| mode := _MADCTL_BGR; _scroll := 0 |}; rx := 0 |}.
Proof.
  unfold rotation_writes. vm_compute. discriminate.
Qed.

(** ** [char] and [font_char] *)

Lemma rfold_invariant {A B} (f : B -> A -> result B) (P : B -> Prop)
    (Q : A -> Prop) (l : list A) (acc : B) :
  (forall b a, P b -> Q a -> exists b', f b a = Ok b' /\ P b') ->
  Forall Q l -> P acc ->
  exists b', rfold f l acc = Ok b' /\ P b'.
Proof.
  intros Hstep Hl. revert acc.
  induction Hl as [|a l Ha Hl IH]; intros acc Hacc.
  - exists acc. split; [reflexivity|assumption].
  - destruct (Hstep acc a Hacc Ha) as (b' & Hf & Hb').
    simpl. rewrite Hf. simpl. apply IH. exact Hb'.
Qed.

Lemma index_of_in_range (len : nat) (i : Z) :
  0 <= i < Z.of_nat len -> index_of len i = Some (Z.to_nat i).
Proof.
  intros H. unfold index_of.
  destruct (Z.ltb_spec i 0); [lia|].
  destruct (Z.leb_spec 0 i); [|lia].
  destruct (Z.ltb_spec i (Z.of_nat len)); [reflexivity|lia].
Qed.

Lemma put_pixel_in_range (data : bytes) (i : Z) (c : bytes) :
  length c = 2%nat -> 0 <= i -> i + 1 < Z.of_nat (length data) ->
  exists d, put_pixel data i c = Ok d /\ length d = length data.
Proof.
  intros Hc Hi Hlen.
  destruct c as [|c0 [|c1 [|? ?]]]; try discriminate.
  unfold put_pixel, getitem, setitem. simpl.
  rewrite index_of_in_range by lia. simpl.
  rewrite length_insert, index_of_in_range by lia. simpl.
  eexists. split; [reflexivity|]. now rewrite !length_insert.
Qed.

Lemma range_Forall (n : Z) : Forall (fun r => 0 <= r < n) (range n).
Proof.
  unfold range. apply Forall_forall. intros r Hr.
  apply list_elem_of_In, in_map_iff in Hr. destruct Hr as (k & <- & Hk).
  apply in_seq in Hk. lia.
Qed.

Lemma enumerate_Forall (buffer : bytes) :
  Forall (fun cb : Z * Z => 0 <= cb.1 < Z.of_nat (length buffer)) (enumerate buffer).
Proof.
  unfold enumerate. apply Forall_forall. intros [c b] H.
  apply list_elem_of_lookup in H. destruct H as [i H].
  rewrite list_lookup_imap in H.
  destruct (buffer !! i) as [x|] eqn:E; [|discriminate].
  apply lookup_lt_Some in E. simpl in H. injection H as <- <-. simpl. lia.
Qed.

(** The loops of [char] never raise: every index they write lies inside
    the 128-byte buffer. *)
Lemma char_data_total (buffer color background : bytes) :
  length buffer = 8%nat -> length color = 2%nat -> length background = 2%nat ->
  exists data, char_data buffer color background = Ok data /\
               length data = 128%nat.
Proof.
  intros Hb Hc Hbg. unfold char_data.
  apply rfold_invariant with
    (P := fun d : bytes => length d = 128%nat)
    (Q := fun cb : Z * Z => 0 <= cb.1 < 8).
  - intros d [c byte] Hd Hcb. simpl in Hcb.
    apply rfold_invariant with
      (P := fun d : bytes => length d = 128%nat)
      (Q := fun r : Z => 0 <= r < 8); [|apply range_Forall|exact Hd].
    intros d' r Hd' Hr.
    destruct (Z.land byte (Z.shiftl 1 r) =? 0).
    + destruct (put_pixel_in_range d' (r * 8 * 2 + c * 2) background)
        as (d'' & -> & Hlen); [assumption|lia|lia|].
      exists d''. split; [reflexivity|congruence].
    + destruct (put_pixel_in_range d' (r * 8 * 2 + c * 2) color)
        as (d'' & -> & Hlen); [assumption|lia|lia|].
      exists d''. split; [reflexivity|congruence].
  - pose proof (enumerate_Forall buffer) as H. rewrite Hb in H. exact H.
  - reflexivity.
Qed.

Lemma char_run miso framebuf_text (ch : string) (x y color background : Z)
    (s : state) :
  char miso framebuf_text ch x y color background s =
  (Ok tt, s,
   block_events x y (x + 7) (y + 7) (glyph_data framebuf_text ch color background)).
Proof.
  unfold char, glyph_data.
  destruct (char_data_total (map (framebuf_text ch) (seq 0 8))
              (pack_H color) (pack_H background)) as (data & E & _);
    try reflexivity.
  unfold bind at 1. unfold lift. rewrite E.
  unfold bind. rewrite _block_write_run. reflexivity.
Qed.

Lemma length_glyph_data framebuf_text (ch : string) (color background : Z) :
  length (glyph_data framebuf_text ch color background) = 128%nat.
Proof.
  unfold glyph_data.
  destruct (char_data_total (map (framebuf_text ch) (seq 0 8))
              (pack_H color) (pack_H background)) as (data & -> & H);
    try reflexivity.
  exact H.
Qed.

Lemma font_char_run miso (f : font) (ch : string) (x y color background : Z)
    (s : state) :
  font_char miso f ch x y color background s =
  let '(glyph, char_height, char_width) := f ch in
  if 2 * char_height * char_width <? 0 then (Raise ValueError, s, [])
  else
    match font_char_data glyph char_height char_width
            (if char_height mod 8 =? 0 then char_height / 8
             else char_height / 8 + 1)
            (pack_H color) (pack_H background)
            (bytearray (Z.to_nat (2 * char_height * char_width))) with
    | Ok odata =>
        (Ok char_width, s,
         block_events x y (x + char_width - 1) (y + char_height - 1) odata)
    | Raise e => (Raise e, s, [])
    end.
Proof.
  unfold font_char. destruct (f ch) as [[glyph char_height] char_width].
  unfold bind, ret, raise, lift.
  destruct (2 * char_height * char_width <? 0); [reflexivity|].
  destruct (font_char_data _ _ _ _ _ _ _); reflexivity.
Qed.

Lemma font_char_trace miso (f : font) (ch : string) (x y color background : Z)
    (s : state) :
  trace (font_char miso f ch x y color background s) = [] \/
  exists odata,
    trace (font_char miso f ch x y color background s) =
    block_events x y (x + (f ch).2 - 1) (y + (f ch).1.2 - 1) odata.
Proof.
  rewrite font_char_run. destruct (f ch) as [[glyph char_height] char_width].
  cbn [fst snd].
  destruct (2 * char_height * char_width <? 0); [left; reflexivity|].
  destruct (font_char_data _ _ _ _ _ _ _) as [odata|e]; [|left; reflexivity].
  right. exists odata. reflexivity.
Qed.

(** ** Windows *)

Lemma ranges_block (x0 y0 x1 y1 : Z) (d : bytes) :
  col_ranges (block_events x0 y0 x1 y1 d) = [Some (x0 mod 65536, x1 mod 65536)] /\
  page_ranges (block_events x0 y0 x1 y1 d) = [Some (y0 mod 65536, y1 mod 65536)].
Proof.
  unfold col_ranges, page_ranges, params.
  rewrite <- (app_nil_r (block_events x0 y0 x1 y1 d)), transfers_block.
  rewrite !filter_cons. simpl. rewrite !bounds_pack_HH. split; reflexivity.
Qed.

Lemma ranges_read (x y : Z) (reply : bytes) :
  col_ranges (read_events x y reply) = [Some (x mod 65536, x mod 65536)] /\
  page_ranges (read_events x y reply) = [Some (y mod 65536, y mod 65536)].
Proof.
  unfold col_ranges, page_ranges, params, transfers, read_events.
  rewrite scan_cmd, scan_data, scan_cmd, scan_data.
  rewrite !filter_cons. simpl. rewrite !bounds_pack_HH. split; reflexivity.
Qed.

Lemma windows_ok_ranges (tr : list event) (x0 y0 x1 y1 : Z) :
  col_ranges tr = [Some (x0 mod 65536, x1 mod 65536)] ->
  page_ranges tr = [Some (y0 mod 65536, y1 mod 65536)] ->
  0 <= x0 -> x0 <= x1 -> x1 < width -> 0 <= y0 -> y0 <= y1 -> y1 < height ->
  windows_ok tr = true.
Proof.
  unfold windows_ok, width, height. intros -> -> ? ? ? ? ? ?.
  rewrite !Z.mod_small by lia. simpl.
  rewrite !andb_true_r, !andb_true_iff, !Z.leb_le, !Z.ltb_lt. lia.
Qed.

(** C1, as the code has it: a pixel write and [fill_rectangle] only ever
    program windows with [0 <= x0 <= x1 < width] and
    [0 <= y0 <= y1 < height] (the write rejects what lies outside, the
    fill clamps).  The pixel read, [char] and [font_char] do not clip:
    they program the window they are asked for, reduced to 16 bits, so
    their window is in bounds when the requested pixel or glyph lies on
    the panel. *)
Theorem windows_in_bounds miso framebuf_text (f : font) (ch : string)
    (x y w h color background : Z) (s : state) :
  windows_ok (trace (pixel miso x y (Some color) s)) = true /\
  windows_ok (trace (fill_rectangle miso x y w h color s)) = true /\
  col_ranges (trace (pixel miso x y None s)) =
    [Some (x mod 65536, x mod 65536)] /\
  page_ranges (trace (pixel miso x y None s)) =
    [Some (y mod 65536, y mod 65536)] /\
  col_ranges (trace (char miso framebuf_text ch x y color background s)) =
    [Some (x mod 65536, (x + 7) mod 65536)] /\
  page_ranges (trace (char miso framebuf_text ch x y color background s)) =
    [Some (y mod 65536, (y + 7) mod 65536)] /\
  (0 <= x < width -> 0 <= y < height ->
   windows_ok (trace (pixel miso x y None s)) = true) /\
  (0 <= x -> x + 7 < width -> 0 <= y -> y + 7 < height ->
   windows_ok (trace (char miso framebuf_text ch x y color background s)) = true) /\
  (0 <= x -> 1 <= (f ch).2 -> x + (f ch).2 <= width ->
   0 <= y -> 1 <= (f ch).1.2 -> y + (f ch).1.2 <= height ->
   windows_ok (trace (font_char miso f ch x y color background s)) = true).
Proof.
  pose proof (pixel_read_run miso x y s) as Hread.
  pose proof (ranges_read x y [miso (rx s); miso (S (rx s)); miso (S (S (rx s)))])
    as [Hrc Hrp].
  pose proof (ranges_block x y (x + 7) (y + 7)
                (glyph_data framebuf_text ch color background)) as [Hcc Hcp].
  rewrite Hread, char_run, fill_rectangle_run. unfold trace at 2 3 4 5 6 7 8.
  cbn [snd].
  split; [|split; [apply windows_ok_fill|]].
  - destruct (Z_le_dec 0 x) as [Hx0|Hx0];
      [destruct (Z_lt_dec x width) as [Hx1|Hx1];
       [destruct (Z_le_dec 0 y) as [Hy0|Hy0];
        [destruct (Z_lt_dec y height) as [Hy1|Hy1]| ]| ]| ];
      try (rewrite pixel_write_skip by lia; reflexivity).
    rewrite pixel_write_run by lia. unfold trace. cbn [snd].
    pose proof (ranges_block x y x y (pack_H color)) as [Hc Hp].
    apply (windows_ok_ranges _ x y x y); auto; lia.
  - repeat (split; [assumption|]).
    split; [|split].
    + intros Hx Hy. apply (windows_ok_ranges _ x y x y); auto; lia.
    + intros. apply (windows_ok_ranges _ x y (x + 7) (y + 7)); auto; lia.
    + intros Hx Hw Hxw Hy Hh Hyh.
      destruct (font_char_trace miso f ch x y color background s)
        as [-> | [odata ->]]; [reflexivity|].
      pose proof (ranges_block x y (x + (f ch).2 - 1) (y + (f ch).1.2 - 1) odata)
        as [Hfc Hfp].
      apply (windows_ok_ranges _ x y (x + (f ch).2 - 1) (y + (f ch).1.2 - 1));
        auto; lia.
Qed.

Lemma windows_in_bounds_witness :
  windows_ok (trace (pixel (fun _ => x00) 10 20 None
                       {| self := {| mode := _MADCTL_BGR; _scroll := 0 |};
                          rx := 0 |})) = true /\
  windows_ok (trace (char (fun _ => x00) (fun _ _ => x00) "A" 312 232 0xffff 0
                       {| self := {| mode := _MADCTL_BGR; _scroll := 0 |};
                          rx := 0 |})) = true /\
  windows_ok (trace (font_char (fun _ => x00) (fun _ => ([x03; x01], 2, 2)) "A"
                       318 238 0xffff 0
                       {| self := {| mode := _MADCTL_BGR; _scroll := 0 |};
                          rx := 0 |})) = true.
Proof.
  destruct (windows_in_bounds (fun _ => x00) (fun _ _ => x00)
              (fun _ => ([x03; x01], 2, 2)) "A" 10 20 1 1 0xffff 0
              {| self := {| mode := _MADCTL_BGR; _scroll := 0 |}; rx := 0 |})
    as (_ & _ & _ & _ & _ & _ & Hread & _ & _).
  destruct (windows_in_bounds (fun _ => x00) (fun _ _ => x00)
              (fun _ => ([x03; x01], 2, 2)) "A" 312 232 1 1 0xffff 0
              {| self := {| mode := _MADCTL_BGR; _scroll := 0 |}; rx := 0 |})
    as (_ & _ & _ & _ & _ & _ & _ & Hchar & _).
  destruct (windows_in_bounds (fun _ => x00) (fun _ _ => x00)
              (fun _ => ([x03; x01], 2, 2)) "A" 318 238 1 1 0xffff 0
              {| self := {| mode := _MADCTL_BGR; _scroll := 0 |}; rx := 0 |})
    as (_ & _ & _ & _ & _ & _ & _ & _ & Hfont).
  split; [|split].
  - exact (Hread ltac:(unfold width; lia) ltac:(unfold height; lia)).
  - exact (Hchar ltac:(lia) ltac:(unfold width; lia) ltac:(lia)
             ltac:(unfold height; lia)).
  - exact (Hfont ltac:(lia) ltac:(cbn; lia) ltac:(unfold width; cbn; lia)
             ltac:(lia) ltac:(cbn; lia) ltac:(unfold height; cbn; lia)).
Defined.

(** C1 as stated fails: [char] at x = 316 programs the columns 316..323 on
    the 320-wide panel, a pixel read at x = 400 programs column 400, and
    [font_char] with a 2x2 glyph at y = 239 programs the pages 239..240. *)
Lemma windows_out_of_bounds :
  col_ranges (trace (char (fun _ => x00) (fun _ _ => x00) "A" 316 0 0xffff 0
                       {| self := {| mode := _MADCTL_BGR; _scroll := 0 |};
                          rx := 0 |})) = [Some (316, 323)] /\
  windows_ok (trace (char (fun _ => x00) (fun _ _ => x00) "A" 316 0 0xffff 0
                       {| self := {| mode := _MADCTL_BGR; _scroll := 0 |};
                          rx := 0 |})) = false /\
  col_ranges (trace (pixel (fun _ => x00) 400 10 None
                       {| self := {| mode := _MADCTL_BGR; _scroll := 0 |};
                          rx := 0 |})) = [Some (400, 400)] /\
  windows_ok (trace (pixel (fun _ => x00) 400 10 None
                       {| self := {| mode := _MADCTL_BGR; _scroll := 0 |};
                          rx := 0 |})) = false /\
  page_ranges (trace (font_char (fun _ => x00) (fun _ => ([x03; x01], 2, 2)) "A"
                        0 239 0xffff 0
                        {| self := {| mode := _MADCTL_BGR; _scroll := 0 |};
                           rx := 0 |})) = [Some (239, 240)] /\
  windows_ok (trace (font_char (fun _ => x00) (fun _ => ([x03; x01], 2, 2)) "A"
                       0 239 0xffff 0
                       {| self := {| mode := _MADCTL_BGR; _scroll := 0 |};
                          rx := 0 |})) = false.
Proof.
  repeat split; vm_compute; reflexivity.
Qed.

(** Sanity checks of the glyph expansion on concrete inputs. *)
Example font_char_2x2 :
  font_char (fun _ => x00) (fun _ => ([x03; x01], 2, 2)) "A" 0 0 0xffff 0
    {| self := {| mode := _MADCTL_BGR; _scroll := 0 |}; rx := 0 |} =
  (Ok 2, {| self := {| mode := _MADCTL_BGR; _scroll := 0 |}; rx := 0 |},
   block_events 0 0 1 1 [xff; xff; xff; xff; xff; xff; x00; x00]).
Proof. vm_compute. reflexivity. Qed.

Example char_data_corner :
  char_data [x01; x00; x00; x00; x00; x00; x00; x80] (pack_H 0xf800) (pack_H 0x001f) =
  Ok ([xf8; x00] ++ bytes_mul [x00; x1f] 62 ++ [xf8; x00]).
Proof. vm_compute. reflexivity. Qed.

(** ** [text] *)

Section TextSteps.

Variables (miso : nat -> byte) (framebuf_text : string -> nat -> byte).
Variables (x y color background wrap vwrap : Z) (clear_eol : bool).

(** One turn of the loop of [text] on a character of the built-in font
    that still fits on the line. *)
Lemma text_loop_char_fits (ch : ascii) (rest : list ascii) (tx ty : Z)
    (s : state) :
  ch <> "010"%char -> tx < wrap ->
  text_loop miso framebuf_text x y color background wrap vwrap clear_eol None
    (ch :: rest) (tx, ty) s =
  (let '(r, s2, t2) :=
     text_loop miso framebuf_text x y color background wrap vwrap clear_eol None
       rest (tx + 8, ty) s in
   (r, s2,
    trace (char miso framebuf_text (String ch EmptyString) tx ty
             color background s) ++ t2)).
Proof.
  intros Hch Htx. apply Ascii.eqb_neq in Hch.
  cbn [text_loop]. rewrite Hch. cbn [fst snd].
  replace (tx >=? wrap) with false by (symmetry; rewrite Z.geb_leb; apply Z.leb_gt; lia).
  cbn [fst snd]. unfold bind. rewrite char_run. reflexivity.
Qed.

(** One turn of the loop on a character that no longer fits: the cursor
    goes back to [x], one line of 8 pixels down, before the character is
    drawn. *)
Lemma text_loop_char_wraps (ch : ascii) (rest : list ascii) (tx ty : Z)
    (s : state) :
  ch <> "010"%char -> wrap <= tx -> ty + 8 < vwrap ->
  text_loop miso framebuf_text x y color background wrap vwrap clear_eol None
    (ch :: rest) (tx, ty) s =
  (let '(r, s2, t2) :=
     text_loop miso framebuf_text x y color background wrap vwrap clear_eol None
       rest (x + 8, ty + 8) s in
   (r, s2,
    trace (char miso framebuf_text (String ch EmptyString) x (ty + 8)
             color background s) ++ t2)).
Proof.
  intros Hch Htx Hty. apply Ascii.eqb_neq in Hch.
  cbn [text_loop]. rewrite Hch. cbn [fst snd].
  replace (tx >=? wrap) with true by (symmetry; rewrite Z.geb_leb; apply Z.leb_le; lia).
  unfold new_line. cbn [fst snd].
  replace (ty + 8 >=? vwrap) with false
    by (symmetry; rewrite Z.geb_leb; apply Z.leb_gt; lia).
  cbn [fst snd]. unfold bind. rewrite char_run. reflexivity.
Qed.

End TextSteps.

(** C9: with wrap boundary 16 and the built-in 8-pixel font, three
    characters other than newline written from x = 0, on a line [y] with
    [y + 8] below the vertical boundary, are drawn at (0, y), (8, y) and
    (0, y + 8); only the clearing of the rest of the last line, when asked
    for, follows. *)
Theorem text_wraps_third_char miso framebuf_text (c1 c2 c3 : ascii)
    (y color background : Z) (vwrap : option Z) (clear_eol : bool) (s : state) :
  c1 <> "010"%char -> c2 <> "010"%char -> c3 <> "010"%char ->
  y + 8 < match vwrap with None => height - 8 | Some v => v end ->
  text miso framebuf_text (String c1 (String c2 (String c3 EmptyString)))
       0 y color background (Some 16) vwrap clear_eol None s =
  (Ok tt, s,
   trace (char miso framebuf_text (String c1 EmptyString) 0 y color background s) ++
   trace (char miso framebuf_text (String c2 EmptyString) 8 y color background s) ++
   trace (char miso framebuf_text (String c3 EmptyString) 0 (y + 8)
            color background s) ++
   (if clear_eol
    then trace (fill_rectangle miso 8 (y + 8) 15 8 background s)
    else [])) /\
  (forall ch x' y',
     trace (char miso framebuf_text ch x' y' color background s) =
     block_events x' y' (x' + 7) (y' + 7)
       (glyph_data framebuf_text ch color background)).
Proof.
  intros H1 H2 H3 Hy. split; [|intros; now rewrite char_run].
  unfold text. cbn [list_ascii_of_string]. unfold bind.
  rewrite text_loop_char_fits by (auto; lia).
  rewrite text_loop_char_fits by (auto; lia).
  rewrite text_loop_char_wraps by (auto; lia).
  cbn [text_loop ret fst snd].
  change (0 + 8 <? 16) with true.
  destruct clear_eol; cbn [andb].
  - rewrite !fill_rectangle_run. rewrite <- !app_assoc, app_nil_l. reflexivity.
  - cbn [ret]. rewrite <- !app_assoc, !app_nil_r. reflexivity.
Qed.

Lemma text_wraps_third_char_witness :
  text (fun _ => x00) (fun _ _ => x00) "abc" 0 100 0xffff 0 (Some 16) None false None
       {| self := {| mode := _MADCTL_BGR; _scroll := 0 |}; rx := 0 |} =
  (Ok tt, {| self := {| mode := _MADCTL_BGR; _scroll := 0 |}; rx := 0 |},
   trace (char (fun _ => x00) (fun _ _ => x00) "a" 0 100 0xffff 0
            {| self := {| mode := _MADCTL_BGR; _scroll := 0 |}; rx := 0 |}) ++
   trace (char (fun _ => x00) (fun _ _ => x00) "b" 8 100 0xffff 0
            {| self := {| mode := _MADCTL_BGR; _scroll := 0 |}; rx := 0 |}) ++
   trace (char (fun _ => x00) (fun _ _ => x00) "c" 0 (100 + 8) 0xffff 0
            {| self := {| mode := _MADCTL_BGR; _scroll := 0 |}; rx := 0 |}) ++
   []).
Proof.
  exact (proj1 (text_wraps_third_char (fun _ => x00) (fun _ _ => x00)
                  "a"%char "b"%char "c"%char 100 0xffff 0 None false
                  {| self := {| mode := _MADCTL_BGR; _scroll := 0 |}; rx := 0 |}
                  ltac:(discriminate) ltac:(discriminate) ltac:(discriminate)
                  ltac:(unfold height; lia))).
Defined.

(** ** The constructor *)

Lemma io_only_emit (e : event) : io_only (emit e).
Proof. intros s. eexists. reflexivity. Qed.

Lemma io_only_ret : io_only (ret tt).
Proof. intros s. eexists. reflexivity. Qed.

Lemma io_only_bind (m : M unit) (k : unit -> M unit) :
  io_only m -> io_only (k tt) -> io_only (bind m k).
Proof.
  intros Hm Hk s. destruct (Hm s) as [t1 E1]. destruct (Hk s) as [t2 E2].
  exists (t1 ++ t2). unfold bind. rewrite E1, E2. reflexivity.
Qed.

Lemma io_only_for_each {A} (l : list A) (body : A -> M unit) :
  (forall a, io_only (body a)) -> io_only (for_each l body).
Proof.
  intros H. induction l as [|a l IH]; [apply io_only_ret|].
  simpl. apply io_only_bind; [apply H|exact IH].
Qed.

Lemma io_only_data (d : bytes) : io_only (_data d).
Proof. intros s. eexists. reflexivity. Qed.

Lemma io_only_write (c : Z) (d : option bytes) : io_only (_write c d).
Proof. intros s. destruct d; eexists; reflexivity. Qed.

Lemma io_only_set_rotation (value : Z) : io_only (set_rotation value).
Proof. intros s. eexists. apply set_rotation_run. Qed.

Create HintDb io discriminated.
#[local] Hint Resolve io_only_emit io_only_ret io_only_bind io_only_for_each
  io_only_data io_only_write io_only_set_rotation : io.

Lemma io_only_reset : io_only reset.
Proof. unfold reset. auto 10 with io. Qed.

Lemma io_only_init : io_only init.
Proof.
  unfold init. apply io_only_bind; [|auto 10 with io].
  apply io_only_for_each. intros [command data]. auto with io.
Qed.

Lemma bind_ok {A B} (m : M A) (k : A -> M B) (s s1 : state) (a : A)
    (t : list event) :
  m s = (Ok a, s1, t) ->
  outcome (bind m k s) = outcome (k a s1) /\ final (bind m k s) = final (k a s1).
Proof.
  intros E. unfold bind. rewrite E.
  destruct (k a s1) as [[r s2] t2]. split; reflexivity.
Qed.

Lemma bind_io_only {B} (m : M unit) (k : unit -> M B) (s : state) :
  io_only m ->
  outcome (bind m k s) = outcome (k tt s) /\ final (bind m k s) = final (k tt s).
Proof.
  intros Hm. destruct (Hm s) as [t E]. exact (bind_ok m k s s tt t E).
Qed.

(** The constructor returns with the requested mode stored and the scroll
    offset at 0. *)
Lemma constructor_state (rotation mode_ : Z) (s : state) :
  outcome (__init__ rotation mode_ s) = Ok tt /\
  self (final (__init__ rotation mode_ s)) = {| mode := mode_; _scroll := 0 |}.
Proof.
  unfold __init__.
  match goal with
  | |- context [bind ?m ?k s] =>
      destruct (bind_ok m k s _ tt [] eq_refl) as [-> ->]
  end.
  repeat (match goal with
          | |- context [bind ?m ?k ?s1] =>
              destruct (bind_io_only m k s1) as [-> ->];
              [auto using io_only_reset, io_only_init with io|]
          end).
  split; reflexivity.
Qed.

(** ** Bus discipline *)

Lemma bus_ok_app (st : bus_state) (t1 t2 : list event) :
  bus_ok st t1 = true -> bus_ok st (t1 ++ t2) = bus_ok Idle t2.
Proof.
  revert st. induction t1 as [|e t1 IH]; intros st H.
  - destruct st; try discriminate. reflexivity.
  - simpl in *. destruct (bus_step st e); [|discriminate]. now apply IH.
Qed.

Lemma disciplined_ret {A} (a : A) : disciplined (ret a).
Proof. intros s. reflexivity. Qed.

Lemma disciplined_raise {A} (e : exn) : disciplined (@raise A e).
Proof. intros s. reflexivity. Qed.

Lemma disciplined_lift {A} (r : result A) : disciplined (lift r).
Proof. intros s. reflexivity. Qed.

Lemma disciplined_get_self : disciplined get_self.
Proof. intros s. reflexivity. Qed.

Lemma disciplined_set_scroll (v : Z) : disciplined (set_scroll v).
Proof. intros s. reflexivity. Qed.

Lemma disciplined_bind {A B} (m : M A) (k : A -> M B) :
  disciplined m -> (forall a, disciplined (k a)) -> disciplined (bind m k).
Proof.
  intros Hm Hk s. specialize (Hm s). unfold bind.
  destruct (m s) as [[[a|e] s1] t1]; [|exact Hm].
  specialize (Hk a s1). destruct (k a s1) as [[r s2] t2].
  unfold trace in *. cbn [snd] in *. now rewrite bus_ok_app.
Qed.

Lemma disciplined_for_each {A} (l : list A) (body : A -> M unit) :
  (forall a, disciplined (body a)) -> disciplined (for_each l body).
Proof.
  intros H. induction l as [|a l IH]; [apply disciplined_ret|].
  simpl. apply disciplined_bind; [apply H|intros _; exact IH].
Qed.

Lemma disciplined_data (d : bytes) : disciplined (_data d).
Proof. intros s. reflexivity. Qed.

Lemma disciplined_write (c : Z) (d : option bytes) : disciplined (_write c d).
Proof. intros s. destruct d; reflexivity. Qed.

Lemma disciplined_read miso (c count : Z) : disciplined (_read miso c count).
Proof. intros s. reflexivity. Qed.

Lemma disciplined_idle_emit (e : event) :
  bus_step Idle e = Some Idle -> disciplined (emit e).
Proof. intros H s. unfold emit, trace. cbn [snd bus_ok]. now rewrite H. Qed.

Create HintDb bus discriminated.
#[local] Hint Resolve disciplined_ret disciplined_raise disciplined_lift
  disciplined_get_self disciplined_set_scroll disciplined_bind
  disciplined_for_each disciplined_data disciplined_write disciplined_read
  : bus.

Lemma disciplined_set_rotation (value : Z) : disciplined (set_rotation value).
Proof.
  unfold set_rotation. apply disciplined_bind; [auto with bus|].
  intros d. cbv zeta. destruct (_ !! _); auto with bus.
Qed.

Lemma disciplined_block miso (x0 y0 x1 y1 : Z) (data : option bytes) :
  disciplined (_block miso x0 y0 x1 y1 data).
Proof. unfold _block. destruct data; auto 10 with bus. Qed.

#[local] Hint Resolve disciplined_set_rotation disciplined_block : bus.

Lemma disciplined_pixel miso (x y : Z) (color : option Z) :
  disciplined (pixel miso x y color).
Proof.
  unfold pixel. destruct color as [c|].
  - destruct (_ || _); auto 10 with bus.
  - apply disciplined_bind; [auto with bus|].
    intros [[|r [|b [|g [|? ?]]]]|]; auto with bus.
Qed.

Lemma disciplined_fill_rectangle miso (x y w h color : Z) :
  disciplined (fill_rectangle miso x y w h color).
Proof.
  unfold fill_rectangle. destruct (clamp x y w h) as [[[x' y'] w'] h'].
  apply disciplined_bind; [auto with bus|]. intros _.
  apply disciplined_bind; [|auto with bus].
  destruct (_ =? _); auto with bus.
Qed.

#[local] Hint Resolve disciplined_pixel disciplined_fill_rectangle : bus.

Lemma disciplined_char miso framebuf_text (ch : string) (x y color background : Z) :
  disciplined (char miso framebuf_text ch x y color background).
Proof. unfold char. auto 10 with bus. Qed.

Lemma disciplined_font_char miso (f : font) (ch : string)
    (x y color background : Z) :
  disciplined (font_char miso f ch x y color background).
Proof.
  unfold font_char. destruct (f ch) as [[glyph char_height] char_width].
  apply disciplined_bind; [destruct (_ <? _); auto with bus|].
  auto 10 with bus.
Qed.

#[local] Hint Resolve disciplined_char disciplined_font_char : bus.

Lemma disciplined_text_loop miso framebuf_text (x y color background wrap vwrap : Z)
    (clear_eol : bool) (fnt : option font) (chars : list ascii) (cur : Z * Z) :
  disciplined (text_loop miso framebuf_text x y color background wrap vwrap
                 clear_eol fnt chars cur).
Proof.
  revert cur. induction chars as [|ch rest IH]; intros cur; [apply disciplined_ret|].
  cbn [text_loop]. destruct (Ascii.eqb ch "010"%char).
  - apply disciplined_bind; [destruct (_ && _); auto with bus|auto].
  - destruct fnt as [f|]; apply disciplined_bind; auto with bus.
Qed.

Lemma disciplined_text miso framebuf_text (txt : string) (x y color background : Z)
    (wrap vwrap : option Z) (clear_eol : bool) (fnt : option font) :
  disciplined (text miso framebuf_text txt x y color background wrap vwrap
                 clear_eol fnt).
Proof.
  unfold text. apply disciplined_bind; [apply disciplined_text_loop|].
  intros cur. destruct (_ && _); auto with bus.
Qed.

Lemma disciplined_scroll (dy : option Z) : disciplined (scroll dy).
Proof.
  unfold scroll. apply disciplined_bind; [auto with bus|].
  intros d. destruct dy; auto 10 with bus.
Qed.

#[local] Hint Extern 1 (disciplined (emit _)) =>
  apply disciplined_idle_emit; reflexivity : bus.

Lemma disciplined_reset : disciplined reset.
Proof. unfold reset. auto 10 with bus. Qed.

Lemma disciplined_init : disciplined init.
Proof.
  unfold init. apply disciplined_bind; [|auto 10 with bus].
  apply disciplined_for_each. intros [c d]. auto with bus.
Qed.

Lemma disciplined_constructor (rotation mode_ : Z) :
  disciplined (__init__ rotation mode_).
Proof.
  unfold __init__. apply disciplined_bind; [intros s; reflexivity|]. intros _.
  pose proof disciplined_reset. pose proof disciplined_init.
  auto 20 with bus.
Qed.

(** X1: as long as the pin and SPI calls themselves succeed (the model
    has no failing bus operation) and a read is asked for a count that is
    not negative, every method keeps the bus discipline: each chip-select
    window holds one write, followed by at most one read, the
    data/command line, the reset line and the sleeps only happen while
    the panel is deselected, and the panel is deselected when the method
    ends.  This also holds when the driver's own code raises, as
    [font_char] does on a malformed glyph, alone or inside [text]. *)
Theorem bus_discipline miso framebuf_text (s : state) :
  (forall c d, bus_ok Idle (trace (_write c d s)) = true) /\
  (forall d, bus_ok Idle (trace (_data d s)) = true) /\
  (forall c n, 0 <= n -> bus_ok Idle (trace (_read miso c n s)) = true) /\
  (forall x0 y0 x1 y1 d,
     bus_ok Idle (trace (_block miso x0 y0 x1 y1 (Some d) s)) = true) /\
  (forall x0 y0 x1 y1,
     x0 <= x1 -> y0 <= y1 ->
     bus_ok Idle (trace (_block miso x0 y0 x1 y1 None s)) = true) /\
  bus_ok Idle (trace (reset s)) = true /\
  bus_ok Idle (trace (init s)) = true /\
  (forall v, bus_ok Idle (trace (set_rotation v s)) = true) /\
  (forall x y c, bus_ok Idle (trace (pixel miso x y c s)) = true) /\
  (forall x y w h c,
     bus_ok Idle (trace (fill_rectangle miso x y w h c s)) = true) /\
  (forall c, bus_ok Idle (trace (fill miso c s)) = true) /\
  (forall ch x y c b,
     bus_ok Idle (trace (char miso framebuf_text ch x y c b s)) = true) /\
  (forall f ch x y c b,
     bus_ok Idle (trace (font_char miso f ch x y c b s)) = true) /\
  (forall txt x y c b wrap vwrap clear_eol fnt,
     bus_ok Idle (trace (text miso framebuf_text txt x y c b wrap vwrap
                           clear_eol fnt s)) = true) /\
  (forall dy, bus_ok Idle (trace (scroll dy s)) = true) /\
  (forall rotation mode_, bus_ok Idle (trace (__init__ rotation mode_ s)) = true).
Proof.
  repeat apply conj; intros.
  - apply disciplined_write.
  - apply disciplined_data.
  - apply disciplined_read.
  - apply disciplined_block.
  - apply disciplined_block.
  - apply disciplined_reset.
  - apply disciplined_init.
  - apply disciplined_set_rotation.
  - apply disciplined_pixel.
  - apply disciplined_fill_rectangle.
  - apply (disciplined_fill_rectangle miso 0 0 width height).
  - apply disciplined_char.
  - apply disciplined_font_char.
  - apply disciplined_text.
  - apply disciplined_scroll.
  - apply disciplined_constructor.
Qed.

Lemma bus_discipline_witness :
  bus_ok Idle (trace (_read (fun _ => x00) _RAM_READ 3
                        {| self := {| mode := _MADCTL_BGR; _scroll := 0 |};
                           rx := 0 |})) = true /\
  bus_ok Idle (trace (_block (fun _ => x00) 10 20 11 22 None
                        {| self := {| mode := _MADCTL_BGR; _scroll := 0 |};
                           rx := 0 |})) = true.
Proof.
  destruct (bus_discipline (fun _ => x00) (fun _ _ => x00)
              {| self := {| mode := _MADCTL_BGR; _scroll := 0 |}; rx := 0 |})
    as (_ & _ & Hread & _ & Hblock & _).
  split; [apply Hread|apply Hblock]; lia.
Defined.

Example bus_ok_rejects :
  bus_ok Idle [DcValue 1; SpiWrite [x00]] = false /\
  bus_ok Idle [CsValue 0; SpiWrite [x00]; SpiWrite [x00]; CsValue 1] = false /\
  bus_ok Idle [CsValue 0; SpiWrite [x00]] = false /\
  bus_ok Idle [CsValue 0; DcValue 1; SpiWrite [x00]; CsValue 1] = false.
Proof. repeat split. Qed.

(** ** More on [color565] *)

Lemma byte_pair_cases (P : Z -> Z -> bool) :
  forallb (fun u => forallb (P u) (range 256)) (range 256) = true ->
  forall u v, 0 <= u < 256 -> 0 <= v < 256 -> P u v = true.
Proof.
  intros H u v Hu Hv.
  pose proof (byte_cases (fun u => forallb (P u) (range 256)) H u Hu) as Hrow.
  exact (byte_cases (P u) Hrow v Hv).
Qed.

Lemma lor_disjoint (a b : Z) : Z.land a b = 0 -> Z.lor a b = a + b.
Proof. intros H. pose proof (Z.add_lor_land a b). lia. Qed.

Lemma red_green_disjoint (r g : Z) : 0 <= r < 256 -> 0 <= g < 256 ->
  Z.land (Z.shiftl (Z.land r 0xf8) 8) (Z.shiftl (Z.land g 0xfc) 3) = 0.
Proof.
  intros Hr Hg. apply Z.eqb_eq.
  apply (byte_pair_cases
           (fun r g => Z.land (Z.shiftl (Z.land r 0xf8) 8)
                              (Z.shiftl (Z.land g 0xfc) 3) =? 0));
    [vm_compute; reflexivity|lia|lia].
Qed.

Lemma red_blue_disjoint (r b : Z) : 0 <= r < 256 -> 0 <= b < 256 ->
  Z.land (Z.shiftl (Z.land r 0xf8) 8) (Z.shiftr b 3) = 0.
Proof.
  intros Hr Hb. apply Z.eqb_eq.
  apply (byte_pair_cases
           (fun r b => Z.land (Z.shiftl (Z.land r 0xf8) 8) (Z.shiftr b 3) =? 0));
    [vm_compute; reflexivity|lia|lia].
Qed.

Lemma green_blue_disjoint (g b : Z) : 0 <= g < 256 -> 0 <= b < 256 ->
  Z.land (Z.shiftl (Z.land g 0xfc) 3) (Z.shiftr b 3) = 0.
Proof.
  intros Hg Hb. apply Z.eqb_eq.
  apply (byte_pair_cases
           (fun g b => Z.land (Z.shiftl (Z.land g 0xfc) 3) (Z.shiftr b 3) =? 0));
    [vm_compute; reflexivity|lia|lia].
Qed.

Lemma red_field_value (r : Z) : 0 <= r < 256 ->
  Z.shiftl (Z.land r 0xf8) 8 = 2048 * (r / 8).
Proof. intros H. byte_fact r. Qed.

Lemma green_field_value (g : Z) : 0 <= g < 256 ->
  Z.shiftl (Z.land g 0xfc) 3 = 32 * (g / 4).
Proof. intros H. byte_fact g. Qed.

(** X2: for channels in 0..255, [color565] is the number
    [2048 * (r / 8) + 32 * (g / 4) + b / 8]: the three channels land in
    separate bit fields and never carry into each other, and the result
    fits 16 bits. *)
Theorem color565_value (r g b : Z) :
  0 <= r <= 255 -> 0 <= g <= 255 -> 0 <= b <= 255 ->
  color565 r g b = 2048 * (r / 8) + 32 * (g / 4) + b / 8 /\
  0 <= color565 r g b <= 65535.
Proof.
  intros Hr Hg Hb. unfold color565.
  rewrite (lor_disjoint (Z.shiftl (Z.land r 0xf8) 8)) by (apply red_green_disjoint; lia).
  rewrite lor_disjoint.
  - rewrite red_field_value, green_field_value, Z.shiftr_div_pow2 by lia.
    change (2 ^ 3) with 8. split; [reflexivity|].
    Z.to_euclidean_division_equations. lia.
  - rewrite <- lor_disjoint by (apply red_green_disjoint; lia).
    rewrite Z.land_lor_distr_l, red_blue_disjoint, green_blue_disjoint by lia.
    reflexivity.
Qed.

Lemma color565_value_witness :
  color565 0xff 0x11 0x22 = 2048 * (0xff / 8) + 32 * (0x11 / 4) + 0x22 / 8 /\
  0 <= color565 0xff 0x11 0x22 <= 65535.
Proof.
  apply (color565_value 0xff 0x11 0x22); lia.
Defined.

(** ** More on [pixel] and [fill_rectangle] *)

(** X3: a pixel write on the panel leaves the driver state alone and sends
    exactly the 1x1 window at (x, y) followed by the two bytes of the
    colour as the RAM-write payload. *)
Theorem pixel_write_in_range miso (x y color : Z) (s : state) :
  0 <= x < width -> 0 <= y < height ->
  pixel miso x y (Some color) s =
    (Ok None, s, block_events x y x y (pack_H color)) /\
  transfers (trace (pixel miso x y (Some color) s)) =
    [(_COLUMN_SET, pack_HH x x); (_PAGE_SET, pack_HH y y);
     (_RAM_WRITE, pack_H color)] /\
  col_ranges (trace (pixel miso x y (Some color) s)) = [Some (x, x)] /\
  page_ranges (trace (pixel miso x y (Some color) s)) = [Some (y, y)].
Proof.
  intros Hx Hy. rewrite pixel_write_run by assumption.
  unfold trace. cbn [snd]. unfold width, height in *.
  split; [reflexivity|]. split.
  - rewrite <- (app_nil_r (block_events _ _ _ _ _)), transfers_block. reflexivity.
  - destruct (ranges_block x y x y (pack_H color)) as [-> ->].
    rewrite !Z.mod_small by lia. split; reflexivity.
Qed.

Lemma pixel_write_in_range_witness :
  col_ranges (trace (pixel (fun _ => x00) 120 160 (Some 0)
                       {| self := {| mode := _MADCTL_BGR; _scroll := 0 |};
                          rx := 0 |})) = [Some (120, 120)].
Proof.
  refine (proj1 (proj2 (proj2 (pixel_write_in_range (fun _ => x00) 120 160 0
                                 _ _ _)))); unfold width, height; lia.
Defined.

Lemma bytes_mul_add (p : bytes) (a b : Z) :
  0 <= a -> 0 <= b -> bytes_mul p (a + b) = bytes_mul p a ++ bytes_mul p b.
Proof.
  intros Ha Hb. unfold bytes_mul.
  rewrite Z2Nat.inj_add, replicate_add, concat_app by lia. reflexivity.
Qed.

Lemma concat_replicate_bytes_mul (p : bytes) (k : nat) (n : Z) :
  0 <= n ->
  concat (replicate k (bytes_mul p n)) = bytes_mul p (Z.of_nat k * n).
Proof.
  intros Hn. induction k as [|k IH]; [reflexivity|].
  cbn [replicate concat]. rewrite IH.
  replace (Z.of_nat (S k) * n) with (n + Z.of_nat k * n) by lia.
  rewrite bytes_mul_add by nia. reflexivity.
Qed.

Lemma concat_params_fill (x y w h color : Z) :
  concat (params _RAM_WRITE (fill_events x y w h color)) =
  bytes_mul (pack_H color) (area x y w h).
Proof.
  pose proof (area_bounds x y w h) as Ha.
  pose proof (Z.mod_pos_bound (area x y w h) 512 ltac:(lia)) as Hm.
  assert (Hd : 0 <= area x y w h / 512) by (apply Z.div_pos; lia).
  rewrite params_fill. cbn [concat app].
  rewrite concat_app, concat_replicate_bytes_mul by lia.
  cbn [concat]. rewrite app_nil_r, <- bytes_mul_add by lia.
  f_equal. rewrite Z2Nat.id by lia.
  pose proof (Z.div_mod (area x y w h) 512 ltac:(lia)). lia.
Qed.

(** X4: the chunks of a fill add up: the RAM-write payloads of
    [fill_rectangle], joined, are exactly one packed colour per pixel of
    the window it programmed, between 1 and 76800 of them. *)
Theorem fill_rectangle_pixel_count miso (x y w h color : Z) (s : state) :
  concat (params _RAM_WRITE (trace (fill_rectangle miso x y w h color s))) =
    bytes_mul (pack_H color) (area x y w h) /\
  Z.of_nat (length (concat (params _RAM_WRITE
                              (trace (fill_rectangle miso x y w h color s))))) =
    2 * area x y w h /\
  1 <= area x y w h <= width * height /\
  exists x0 x1 y0 y1,
    col_ranges (trace (fill_rectangle miso x y w h color s)) = [Some (x0, x1)] /\
    page_ranges (trace (fill_rectangle miso x y w h color s)) = [Some (y0, y1)] /\
    (x1 - x0 + 1) * (y1 - y0 + 1) = area x y w h.
Proof.
  pose proof (area_bounds x y w h) as Ha.
  rewrite fill_rectangle_run. unfold trace. cbn [snd].
  rewrite concat_params_fill.
  split; [reflexivity|]. split; [apply length_bytes_mul_pack_H; lia|].
  split; [exact Ha|].
  pose proof (ranges_fill x y w h color) as Hr. unfold area.
  destruct (clamp x y w h) as [[[x' y'] w'] h']. destruct Hr as [-> ->].
  exists x', (x' + w' - 1), y', (y' + h' - 1).
  split; [reflexivity|]. split; [reflexivity|]. ring.
Qed.

Lemma clamp_in_bounds (x y w h : Z) :
  0 <= x < width -> 0 <= y < height ->
  1 <= w <= width - x -> 1 <= h <= height - y ->
  clamp x y w h = (x, y, w, h).
Proof.
  unfold clamp, width, height. intros Hx Hy Hw Hh.
  rewrite (Z.max_r 0 x), (Z.max_r 0 y), (Z.min_r _ x), (Z.min_r _ y) by lia.
  rewrite (Z.max_r 1 w), (Z.max_r 1 h), (Z.min_r _ w), (Z.min_r _ h) by lia.
  reflexivity.
Qed.

(** X5: a rectangle that lies on the panel is filled as requested: the
    window is (x, y)-(x+w-1, y+h-1) and [w * h] pixels are streamed. *)
Theorem fill_rectangle_in_bounds miso (x y w h color : Z) (s : state) :
  0 <= x < width -> 0 <= y < height ->
  1 <= w <= width - x -> 1 <= h <= height - y ->
  col_ranges (trace (fill_rectangle miso x y w h color s)) =
    [Some (x, x + w - 1)] /\
  page_ranges (trace (fill_rectangle miso x y w h color s)) =
    [Some (y, y + h - 1)] /\
  concat (params _RAM_WRITE (trace (fill_rectangle miso x y w h color s))) =
    bytes_mul (pack_H color) (w * h).
Proof.
  intros Hx Hy Hw Hh. rewrite fill_rectangle_run. unfold trace. cbn [snd].
  pose proof (ranges_fill x y w h color) as Hr.
  rewrite concat_params_fill. unfold area.
  rewrite clamp_in_bounds in * by assumption.
  destruct Hr as [-> ->]. auto.
Qed.

Lemma fill_rectangle_in_bounds_witness :
  col_ranges (trace (fill_rectangle (fun _ => x00) 10 20 30 40 0xf800
                       {| self := {| mode := _MADCTL_BGR; _scroll := 0 |};
                          rx := 0 |})) = [Some (10, 10 + 30 - 1)].
Proof.
  refine (proj1 (fill_rectangle_in_bounds (fun _ => x00) 10 20 30 40 0xf800
                   _ _ _ _ _)); unfold width, height; lia.
Defined.



(** X7: [fill] programs the whole panel, (0,0)-(319,239), and streams one
    packed colour for each of its 76800 pixels. *)
Theorem fill_whole_screen miso (color : Z) (s : state) :
  outcome (fill miso color s) = Ok tt /\
  final (fill miso color s) = s /\
  col_ranges (trace (fill miso color s)) = [Some (0, width - 1)] /\
  page_ranges (trace (fill miso color s)) = [Some (0, height - 1)] /\
  concat (params _RAM_WRITE (trace (fill miso color s))) =
    bytes_mul (pack_H color) (width * height).
Proof.
  unfold fill. rewrite fill_rectangle_run. unfold trace, outcome, final.
  cbn [fst snd]. rewrite concat_params_fill.
  pose proof (ranges_fill 0 0 width height color) as [Hc Hp].
  rewrite Hc, Hp. repeat split.
Qed.

(** ** The glyph loops as a list of stores *)

Lemma rfold_app {A B} (f : B -> A -> result B) (l1 l2 : list A) (acc : B) :
  rfold f (l1 ++ l2) acc = rbind (rfold f l1 acc) (rfold f l2).
Proof.
  revert acc. induction l1 as [|a l1 IH]; intros acc; [reflexivity|].
  simpl. destruct (f acc a) as [acc'|e]; simpl; [apply IH|reflexivity].
Qed.

Lemma rfold_map {A B C} (g : A -> C) (h : B -> C -> result B) (l : list A)
    (acc : B) :
  rfold (fun acc a => h acc (g a)) l acc = rfold h (map g l) acc.
Proof.
  revert acc. induction l as [|a l IH]; intros acc; [reflexivity|].
  simpl. destruct (h acc (g a)); simpl; [apply IH|reflexivity].
Qed.

Lemma rfold_concat {A B C} (cells : A -> list C) (h : B -> C -> result B)
    (l : list A) (acc : B) :
  rfold (fun acc a => rfold h (cells a) acc) l acc =
  rfold h (concat (map cells l)) acc.
Proof.
  revert acc. induction l as [|a l IH]; intros acc; [reflexivity|].
  cbn [rfold map concat]. rewrite rfold_app.
  destruct (rfold h (cells a) acc); simpl; [apply IH|reflexivity].
Qed.

Lemma rfold_ext {A B} (f g : B -> A -> result B) (l : list A) (acc : B) :
  (forall b a, f b a = g b a) -> rfold f l acc = rfold g l acc.
Proof.
  intros H. revert acc. induction l as [|a l IH]; intros acc; [reflexivity|].
  simpl. rewrite H. destruct (g acc a); simpl; [apply IH|reflexivity].
Qed.

Lemma put_pixel_stores (data : bytes) (i : Z) (c0 c1 : byte) :
  0 <= i -> i + 1 < Z.of_nat (length data) ->
  put_pixel data i [c0; c1] =
  Ok (<[S (Z.to_nat i) := c1]> (<[Z.to_nat i := c0]> data)).
Proof.
  intros Hi Hlen. unfold put_pixel, getitem, setitem. simpl.
  rewrite index_of_in_range by lia. simpl.
  rewrite length_insert, index_of_in_range by lia. simpl.
  replace (Z.to_nat (i + 1)) with (S (Z.to_nat i)) by lia. reflexivity.
Qed.

(** Stores at offsets that lie inside the buffer and do not overlap all
    succeed, keep the length, leave every other byte alone, and each of
    them is still readable at the end. *)
Lemma put_cells_spec (cells : list (Z * bytes)) (data : bytes) :
  Forall (fun cell : Z * bytes =>
            length cell.2 = 2%nat /\ 0 <= cell.1 /\
            cell.1 + 1 < Z.of_nat (length data)) cells ->
  apart (map fst cells) = true ->
  exists d,
    rfold put_cell cells data = Ok d /\ length d = length data /\
    (forall n cell, cells !! n = Some cell ->
       take 2 (drop (Z.to_nat cell.1) d) = cell.2) /\
    (forall j : nat,
       Forall (fun cell : Z * bytes =>
                 j <> Z.to_nat cell.1 /\ j <> S (Z.to_nat cell.1)) cells ->
       d !! j = data !! j).
Proof.
  revert data. induction cells as [|[i px] cells IH]; intros data Hin Hap.
  - exists data. split; [reflexivity|]. split; [reflexivity|].
    split; [intros n cell H; discriminate|reflexivity].
  - apply Forall_cons in Hin. destruct Hin as [(Hpx & Hi & Hlen) Hin].
    cbn [fst snd] in *. cbn [map apart fst] in Hap.
    apply andb_true_iff in Hap. destruct Hap as [Hhead Hap].
    destruct px as [|c0 [|c1 [|? ?]]]; try discriminate.
    cbn [rfold]. unfold put_cell at 1. cbn [fst snd].
    rewrite put_pixel_stores by assumption. cbn [rbind].
    set (d1 := <[S (Z.to_nat i) := c1]> (<[Z.to_nat i := c0]> data)).
    assert (Hd1 : length d1 = length data) by (unfold d1; now rewrite !length_insert).
    destruct (IH d1) as (d & Hrun & Hlend & Hcells & Hrest).
    { rewrite Hd1. exact Hin. }
    { exact Hap. }
    exists d. split; [exact Hrun|]. split; [congruence|].
    assert (Hfar : Forall (fun cell : Z * bytes =>
                             Z.to_nat i <> Z.to_nat cell.1 /\
                             Z.to_nat i <> S (Z.to_nat cell.1) /\
                             S (Z.to_nat i) <> Z.to_nat cell.1 /\
                             S (Z.to_nat i) <> S (Z.to_nat cell.1)) cells).
    { rewrite forallb_forall in Hhead. apply Forall_forall. intros [j pj] Hj.
      rewrite Forall_forall in Hin. destruct (Hin _ Hj) as (_ & Hj0 & _).
      cbn [fst snd] in *.
      assert (Hj' : In j (map fst cells)).
      { apply in_map_iff. exists (j, pj). split; [reflexivity|].
        now apply list_elem_of_In. }
      specialize (Hhead j Hj'). apply orb_true_iff in Hhead.
      rewrite !Z.ltb_lt in Hhead. lia. }
    split.
    + intros [|n] cell Hn.
      * injection Hn as <-. cbn [fst snd].
        assert (H0 : d !! Z.to_nat i = Some c0).
        { rewrite Hrest by (eapply Forall_impl; [exact Hfar|]; intros ? (?&?&?&?); split; assumption).
          unfold d1. rewrite list_lookup_insert_ne by lia.
          apply list_lookup_insert_eq. lia. }
        assert (H1 : d !! S (Z.to_nat i) = Some c1).
        { rewrite Hrest by (eapply Forall_impl; [exact Hfar|]; intros ? (?&?&?&?); split; assumption).
          unfold d1. apply list_lookup_insert_eq. rewrite length_insert. lia. }
        rewrite (drop_S _ _ _ H0), (drop_S _ _ _ H1). reflexivity.
      * exact (Hcells n cell Hn).
    + intros j Hj. apply Forall_cons in Hj. destruct Hj as [[Hj0 Hj1] Hj].
      cbn [fst] in *. rewrite (Hrest j Hj). unfold d1.
      rewrite !list_lookup_insert_ne by lia. reflexivity.
Qed.

Lemma char_data_cells (buffer color background : bytes) :
  char_data buffer color background =
  rfold put_cell (char_cells buffer color background) (bytearray (2 * 8 * 8)).
Proof.
  unfold char_data, char_cells. rewrite <- rfold_concat.
  apply rfold_ext. intros data [c byte]. rewrite <- rfold_map.
  apply rfold_ext. intros d r. cbn [fst snd]. unfold put_cell. cbn [fst snd].
  destruct (_ =? 0); reflexivity.
Qed.

Lemma char_cells_in_range (buffer color background : bytes) :
  length buffer = 8%nat -> length color = 2%nat -> length background = 2%nat ->
  Forall (fun cell : Z * bytes =>
            length cell.2 = 2%nat /\ 0 <= cell.1 /\ cell.1 + 1 < 128)
         (char_cells buffer color background).
Proof.
  intros Hb Hc Hbg. unfold char_cells. apply Forall_concat, Forall_map.
  pose proof (enumerate_Forall buffer) as He. rewrite Hb in He.
  eapply Forall_impl; [exact He|]. intros [c byte] Hcb. cbn [fst snd] in *.
  apply Forall_map. eapply Forall_impl; [apply (range_Forall 8)|].
  intros r Hr. cbn [fst snd].
  cbv beta in Hr. split; [destruct (_ =? 0); assumption|lia].
Qed.

Lemma land_bit_test (v r : Z) :
  0 <= v < 256 -> 0 <= r < 8 ->
  (Z.land v (Z.shiftl 1 r) =? 0) = negb (Z.testbit v r).
Proof.
  intros Hv Hr.
  assert (H : forallb (fun r => Bool.eqb (Z.land v (Z.shiftl 1 r) =? 0)
                                         (negb (Z.testbit v r))) (range 8) = true).
  { revert v Hv.
    apply (byte_cases (fun v => forallb (fun r =>
             Bool.eqb (Z.land v (Z.shiftl 1 r) =? 0) (negb (Z.testbit v r)))
             (range 8))).
    vm_compute. reflexivity. }
  rewrite forallb_forall in H. apply Bool.eqb_prop, H.
  unfold range. apply in_map_iff. exists (Z.to_nat r). split; [lia|].
  apply in_seq. lia.
Qed.

(** X8: [char] never raises and leaves the driver state alone; it sends
    one block at (x, y)-(x+7, y+7) whose 128 bytes hold, at row [r] and
    column [c], the foreground colour when bit [r] of column byte [c] of
    the rendered glyph is set and the background colour otherwise. *)
Theorem char_glyph miso framebuf_text (ch : string) (x y color background : Z)
    (s : state) (r c : nat) :
  (r < 8)%nat -> (c < 8)%nat ->
  char miso framebuf_text ch x y color background s =
    (Ok tt, s,
     block_events x y (x + 7) (y + 7)
       (glyph_data framebuf_text ch color background)) /\
  length (glyph_data framebuf_text ch color background) = 128%nat /\
  pixel_at (glyph_data framebuf_text ch color background) 8 r c =
    pack_H (if Z.testbit (Z_of_byte (framebuf_text ch c)) (Z.of_nat r)
            then color else background).
Proof.
  intros Hr Hc. split; [apply char_run|]. split; [apply length_glyph_data|].
  unfold glyph_data. rewrite char_data_cells.
  destruct (put_cells_spec
              (char_cells (map (framebuf_text ch) (seq 0 8))
                          (pack_H color) (pack_H background))
              (bytearray (2 * 8 * 8)))
    as (d & -> & _ & Hcells & _).
  { apply char_cells_in_range; reflexivity. }
  { vm_compute. reflexivity. }
  assert (Hbit : (Z.land (Z_of_byte (framebuf_text ch c))
                         (Z.shiftl 1 (Z.of_nat r)) =? 0) =
                 negb (Z.testbit (Z_of_byte (framebuf_text ch c)) (Z.of_nat r))).
  { apply land_bit_test; [apply Z_of_byte_range|lia]. }
  assert (Hcell : char_cells (map (framebuf_text ch) (seq 0 8))
                    (pack_H color) (pack_H background) !! (8 * c + r)%nat =
                  Some (Z.of_nat (2 * (r * 8 + c)),
                        if Z.land (Z_of_byte (framebuf_text ch c))
                                  (Z.shiftl 1 (Z.of_nat r)) =? 0
                        then pack_H background else pack_H color)).
  { do 8 (destruct c as [|c]; [do 8 (destruct r as [|r]; [reflexivity|]); lia|]).
    lia. }
  specialize (Hcells _ _ Hcell). cbn [fst snd] in Hcells.
  rewrite Nat2Z.id in Hcells. unfold pixel_at. rewrite Hcells, Hbit.
  destruct (Z.testbit _ _); reflexivity.
Qed.

Lemma char_glyph_witness :
  pixel_at (glyph_data (fun _ n => match n with O => x05 | _ => x00 end)
              "A" 0xf800 0x001f) 8 2 0 = pack_H 0xf800.
Proof.
  refine (proj2 (proj2 (char_glyph (fun _ => x00)
                          (fun _ n => match n with O => x05 | _ => x00 end)
                          "A" 0 0 0xf800 0x001f
                          {| self := {| mode := _MADCTL_BGR; _scroll := 0 |};
                             rx := 0 |} 2 0 _ _))); lia.
Defined.

(** ** More on [font_char] *)

Lemma rfold_preserves {A B} (f : B -> A -> result B) (P : B -> Prop)
    (l : list A) (acc b' : B) :
  (forall b a b1, P b -> f b a = Ok b1 -> P b1) ->
  P acc -> rfold f l acc = Ok b' -> P b'.
Proof.
  intros Hstep. revert acc. induction l as [|a l IH]; intros acc Hacc H.
  - injection H as <-. exact Hacc.
  - simpl in H. destruct (f acc a) as [b1|e] eqn:E; [|discriminate].
    simpl in H. exact (IH b1 (Hstep _ _ _ Hacc E) H).
Qed.

Lemma setitem_length (data : bytes) (i : Z) (v : byte) (d : bytes) :
  setitem data i v = Ok d -> length d = length data.
Proof.
  unfold setitem. destruct (index_of _ _); [|discriminate].
  intros H. injection H as <-. apply length_insert.
Qed.

Lemma put_pixel_length (data : bytes) (i : Z) (c d : bytes) :
  put_pixel data i c = Ok d -> length d = length data.
Proof.
  unfold put_pixel. destruct (getitem c 0); [|discriminate]. cbn [rbind].
  destruct (setitem data i _) as [d1|] eqn:E1; [|discriminate]. cbn [rbind].
  destruct (getitem c 1); [|discriminate]. cbn [rbind].
  intros E2. apply setitem_length in E1, E2. congruence.
Qed.

Lemma font_char_data_length (glyph : bytes) (char_height char_width gbytes : Z)
    (color background odata d : bytes) :
  font_char_data glyph char_height char_width gbytes color background odata = Ok d ->
  length d = length odata.
Proof.
  unfold font_char_data.
  destruct (rfold _ (range char_width) (None, odata)) as [st|] eqn:E;
    [|discriminate].
  cbn [rbind]. intros H. injection H as <-.
  apply (rfold_preserves _ (fun st : option Z * bytes => length st.2 = length odata)
           _ _ _) in E; [exact E| |reflexivity].
  intros st0 scol st1 Hst0.
  apply (rfold_preserves _ (fun st : option Z * bytes =>
                              length st.2 = length odata)); [|exact Hst0].
  intros [data od] srow [data1 od1] Hod. cbn [fst snd] in *.
  destruct (if srow mod 8 =? 0 then _ else _) as [[dv|]|]; cbn [rbind];
    try discriminate.
  destruct (if Z.land dv _ =? 0 then _ else _) as [od2|] eqn:E2; cbn [rbind];
    [|discriminate].
  intros H. injection H as <- <-.
  destruct (Z.land dv _ =? 0); apply put_pixel_length in E2; congruence.
Qed.

(** X9: [font_char] is all or nothing on the bus.  When it raises nothing
    has been sent; when it returns, it returns the glyph's width and has
    sent one block at (x, y)-(x+width-1, y+height-1) carrying two bytes
    for each of the glyph's pixels.  The driver state is untouched either
    way. *)
Theorem font_char_all_or_nothing miso (f : font) (ch : string)
    (x y color background : Z) (s : state) :
  final (font_char miso f ch x y color background s) = s /\
  match outcome (font_char miso f ch x y color background s) with
  | Raise _ => trace (font_char miso f ch x y color background s) = []
  | Ok w =>
      w = (f ch).2 /\
      exists odata,
        trace (font_char miso f ch x y color background s) =
          block_events x y (x + (f ch).2 - 1) (y + (f ch).1.2 - 1) odata /\
        Z.of_nat (length odata) = 2 * (f ch).1.2 * (f ch).2
  end.
Proof.
  rewrite font_char_run. destruct (f ch) as [[glyph char_height] char_width].
  cbn [fst snd]. destruct (2 * char_height * char_width <? 0) eqn:Eneg.
  - split; reflexivity.
  - destruct (font_char_data _ _ _ _ _ _ _) as [odata|e] eqn:E.
    + split; [reflexivity|]. unfold outcome, trace. cbn [fst snd].
      split; [reflexivity|]. exists odata. split; [reflexivity|].
      apply font_char_data_length in E. rewrite E. unfold bytearray.
      rewrite length_replicate. apply Z.ltb_ge in Eneg. lia.
    + split; reflexivity.
Qed.

Lemma rfold_seq_invariant {B} (f : B -> Z -> result B) (I : Z -> B -> Prop)
    (n : Z) (len start : nat) (acc : B) :
  Z.of_nat (start + len) = n ->
  I (Z.of_nat start) acc ->
  (forall k b, 0 <= k < n -> I k b -> exists b', f b k = Ok b' /\ I (k + 1) b') ->
  exists b', rfold f (map Z.of_nat (seq start len)) acc = Ok b' /\ I n b'.
Proof.
  intros Hn Hacc Hstep. revert start acc Hn Hacc.
  induction len as [|len IH]; intros start acc Hn Hacc.
  - exists acc. split; [reflexivity|].
    replace n with (Z.of_nat start) by lia. exact Hacc.
  - destruct (Hstep (Z.of_nat start) acc ltac:(lia) Hacc) as (b1 & E & H1).
    cbn [seq map rfold]. rewrite E. cbn [rbind].
    apply IH; [lia|]. replace (Z.of_nat (S start)) with (Z.of_nat start + 1) by lia.
    exact H1.
Qed.

(** A loop over [range(n)] that keeps an invariant indexed by the loop
    counter runs to the end. *)
Lemma rfold_range_invariant {B} (f : B -> Z -> result B) (I : Z -> B -> Prop)
    (n : Z) (acc : B) :
  0 <= n -> I 0 acc ->
  (forall k b, 0 <= k < n -> I k b -> exists b', f b k = Ok b' /\ I (k + 1) b') ->
  exists b', rfold f (range n) acc = Ok b' /\ I n b'.
Proof.
  intros Hn H0 Hstep. unfold range.
  apply (rfold_seq_invariant f I n (Z.to_nat n) 0); [lia|exact H0|exact Hstep].
Qed.

Lemma cell_insert_far (l : bytes) (j k : nat) (v : byte) :
  (k < j \/ j + 2 <= k)%nat ->
  take 2 (drop j (<[k := v]> l)) = take 2 (drop j l).
Proof.
  intros [H|H].
  - now rewrite drop_insert_lt by lia.
  - rewrite drop_insert_ge by lia. apply take_insert_ge. lia.
Qed.

Lemma put_pixel_spec (data : bytes) (i : Z) (px : bytes) :
  length px = 2%nat -> 0 <= i -> i + 1 < Z.of_nat (length data) ->
  exists d,
    put_pixel data i px = Ok d /\ length d = length data /\
    take 2 (drop (Z.to_nat i) d) = px /\
    (forall j : nat,
       (j + 2 <= Z.to_nat i \/ Z.to_nat i + 2 <= j)%nat ->
       take 2 (drop j d) = take 2 (drop j data)).
Proof.
  intros Hpx Hi Hlen. destruct px as [|c0 [|c1 [|? ?]]]; try discriminate.
  rewrite put_pixel_stores by assumption. eexists. split; [reflexivity|].
  split; [now rewrite !length_insert|]. split.
  - assert (H0 : (<[S (Z.to_nat i) := c1]> (<[Z.to_nat i := c0]> data))
                   !! Z.to_nat i = Some c0).
    { rewrite list_lookup_insert_ne by lia. apply list_lookup_insert_eq. lia. }
    assert (H1 : (<[S (Z.to_nat i) := c1]> (<[Z.to_nat i := c0]> data))
                   !! S (Z.to_nat i) = Some c1).
    { apply list_lookup_insert_eq. rewrite length_insert. lia. }
    rewrite (drop_S _ _ _ H0), (drop_S _ _ _ H1). reflexivity.
  - intros j Hj. rewrite !cell_insert_far by lia. reflexivity.
Qed.

Lemma offsets_apart (r c k sc w : Z) :
  0 <= c < w -> 0 <= sc < w -> 0 <= r -> 0 <= k -> r <> k \/ c <> sc ->
  r * w * 2 + c * 2 + 2 <= k * w * 2 + sc * 2 \/
  k * w * 2 + sc * 2 + 2 <= r * w * 2 + c * 2.
Proof.
  intros Hc Hsc Hr Hk Hne.
  destruct (Z.lt_trichotomy r k) as [H|[H|H]].
  - left. assert ((r + 1) * w <= k * w) by (apply Z.mul_le_mono_nonneg_r; lia). lia.
  - subst k. lia.
  - right. assert ((k + 1) * w <= r * w) by (apply Z.mul_le_mono_nonneg_r; lia). lia.
Qed.

Lemma glyph_value_range (glyph : bytes) (i : Z) : 0 <= glyph_value glyph i < 256.
Proof.
  unfold glyph_value. destruct (glyph !! Z.to_nat i); [apply Z_of_byte_range|lia].
Qed.

Lemma getitem_glyph (glyph : bytes) (i : Z) :
  0 <= i < Z.of_nat (length glyph) ->
  exists b, getitem glyph i = Ok b /\ Z_of_byte b = glyph_value glyph i.
Proof.
  intros Hi. unfold getitem, glyph_value. rewrite index_of_in_range by lia.
  destruct (lookup_lt_is_Some_2 glyph (Z.to_nat i) ltac:(lia)) as [b Hb].
  rewrite Hb. exists b. split; reflexivity.
Qed.

Lemma gbytes_ceil (h : Z) :
  0 <= h -> (if h mod 8 =? 0 then h / 8 else h / 8 + 1) = (h + 7) / 8.
Proof.
  intros Hh. destruct (Z.eqb_spec (h mod 8) 0);
    Z.to_euclidean_division_equations; lia.
Qed.

Section FontGlyph.

Variables (glyph : bytes) (h w color background : Z).
Hypothesis Hh : 0 <= h.
Hypothesis Hw : 0 <= w.
Hypothesis Hglyph : w * ((h + 7) / 8) <= Z.of_nat (length glyph).

Let gbytes := (h + 7) / 8.
Let expected (r c : Z) : bytes :=
  pack_H (if Z.testbit (glyph_value glyph (c * gbytes + r / 8)) (r mod 8)
          then color else background).
Let cell (od : bytes) (r c : Z) : bytes :=
  take 2 (drop (Z.to_nat (r * w * 2 + c * 2)) od).

Lemma glyph_index_in_range (scol k : Z) :
  0 <= scol < w -> 0 <= k < h ->
  0 <= scol * gbytes + k / 8 < Z.of_nat (length glyph).
Proof.
  intros Hs Hk. subst gbytes.
  assert (Hk8 : 0 <= k / 8 < (h + 7) / 8)
    by (Z.to_euclidean_division_equations; lia).
  assert ((scol + 1) * ((h + 7) / 8) <= w * ((h + 7) / 8))
    by (apply Z.mul_le_mono_nonneg_r; lia).
  nia.
Qed.

(** One column of the glyph: the inner loop of [font_char]. *)
Lemma font_char_column (scol : Z) (st : option Z * bytes) :
  0 <= scol < w ->
  length st.2 = Z.to_nat (2 * h * w) ->
  (forall r c, 0 <= r < h -> 0 <= c < scol -> cell st.2 r c = expected r c) ->
  exists st',
    rfold (fun '(data, odata) srow =>
             let gbyte := srow / 8 in
             let gbit := srow mod 8 in
             data <~ (if gbit =? 0
                      then b <~ getitem glyph (scol * gbytes + gbyte) ;;
                           Ok (Some (Z_of_byte b))
                      else Ok data) ;;
             match data with
             | None => Raise NameError
             | Some d =>
                 odata' <~ (if Z.land d (Z.shiftl 1 gbit) =? 0
                            then put_pixel odata (srow * w * 2 + scol * 2)
                                   (pack_H background)
                            else put_pixel odata (srow * w * 2 + scol * 2)
                                   (pack_H color)) ;;
                 Ok (data, odata')
             end)
          (range h) st = Ok st' /\
    length st'.2 = Z.to_nat (2 * h * w) /\
    (forall r c, 0 <= r < h -> 0 <= c < scol + 1 -> cell st'.2 r c = expected r c).
Proof.
  intros Hs Hlen Hdone.
  match goal with
  | |- exists st', rfold ?f _ _ = _ /\ _ =>
      destruct (rfold_range_invariant f
        (fun k (st' : option Z * bytes) =>
           length st'.2 = Z.to_nat (2 * h * w) /\
           (k mod 8 <> 0 -> st'.1 = Some (glyph_value glyph (scol * gbytes + k / 8))) /\
           (forall r c, 0 <= r < h -> 0 <= c < w ->
              c < scol \/ (c = scol /\ r < k) -> cell st'.2 r c = expected r c))
        h st Hh) as (st' & Hrun & Hl' & _ & Hcells)
  end.
  - split; [exact Hlen|]. split; [intros H; now contradict H|].
    intros r c Hr Hc [Hlt|[_ Hlt]]; [apply Hdone; lia|lia].
  - intros k [data od] Hk (Hl & Hdata & Hcells). cbn [fst snd] in *.
    destruct (glyph_index_in_range scol k Hs Hk) as [Hi0 Hi1].
    assert (Hload : (if k mod 8 =? 0
                     then b <~ getitem glyph (scol * gbytes + k / 8) ;;
                          Ok (Some (Z_of_byte b))
                     else Ok data) =
                    Ok (Some (glyph_value glyph (scol * gbytes + k / 8)))).
    { destruct (Z.eqb_spec (k mod 8) 0) as [E|E].
      - destruct (getitem_glyph glyph (scol * gbytes + k / 8)) as (b & -> & <-);
          [lia|reflexivity].
      - now rewrite Hdata. }
    rewrite Hload. cbn [rbind].
    set (v := glyph_value glyph (scol * gbytes + k / 8)).
    assert (Hbit : (Z.land v (Z.shiftl 1 (k mod 8)) =? 0) =
                   negb (Z.testbit v (k mod 8))).
    { apply land_bit_test; [apply glyph_value_range|].
      apply Z.mod_pos_bound. lia. }
    assert (Hoff : 0 <= k * w * 2 + scol * 2 /\
                   k * w * 2 + scol * 2 + 1 < Z.of_nat (length od)).
    { rewrite Hl. assert ((k + 1) * w <= h * w)
        by (apply Z.mul_le_mono_nonneg_r; lia). nia. }
    destruct (put_pixel_spec od (k * w * 2 + scol * 2)
                (if Z.testbit v (k mod 8) then pack_H color else pack_H background))
      as (od' & Hput & Hl2 & Hnew & Hold);
      [destruct (Z.testbit v (k mod 8)); reflexivity|lia|lia|].
    exists (Some v, od'). split.
    { rewrite Hbit. destruct (Z.testbit v (k mod 8)); cbn [negb];
        rewrite Hput; reflexivity. }
    cbn [fst snd]. split; [congruence|]. split.
    { intros Hk1. f_equal. subst v. f_equal. f_equal.
      Z.to_euclidean_division_equations. lia. }
    intros r c Hr Hc Hwhere. unfold cell.
    destruct (Z.eq_dec r k) as [->|Hrk]; [destruct (Z.eq_dec c scol) as [->|Hcs]|].
    + rewrite Hnew. unfold expected. fold v.
      destruct (Z.testbit v (k mod 8)); reflexivity.
    + rewrite Hold.
      * apply Hcells; [lia|lia|]. left. lia.
      * destruct (offsets_apart k c k scol w); lia.
    + rewrite Hold.
      * apply Hcells; [lia|lia|]. destruct Hwhere as [?|[? ?]]; [left|right]; lia.
      * destruct (offsets_apart r c k scol w); lia.
  - exists st'. split; [exact Hrun|]. split; [exact Hl'|].
    intros r c Hr Hc. apply Hcells; [lia|lia|].
    destruct (Z.eq_dec c scol); [right|left]; lia.
Qed.

(** The two loops of [font_char] on a glyph that has all its bytes. *)
Lemma font_char_data_spec :
  exists od,
    font_char_data glyph h w (if h mod 8 =? 0 then h / 8 else h / 8 + 1)
      (pack_H color) (pack_H background) (bytearray (Z.to_nat (2 * h * w))) = Ok od /\
    length od = Z.to_nat (2 * h * w) /\
    (forall r c, 0 <= r < h -> 0 <= c < w -> cell od r c = expected r c).
Proof.
  rewrite gbytes_ceil by exact Hh. fold gbytes. unfold font_char_data.
  match goal with
  | |- exists od, rbind (rfold ?f _ _) _ = _ /\ _ =>
      destruct (rfold_range_invariant f
        (fun scol (st : option Z * bytes) =>
           length st.2 = Z.to_nat (2 * h * w) /\
           (forall r c, 0 <= r < h -> 0 <= c < scol -> cell st.2 r c = expected r c))
        w (None, bytearray (Z.to_nat (2 * h * w))) Hw) as (st & Hrun & Hl & Hcells)
  end.
  - split; [apply length_replicate|]. intros r c Hr Hc. lia.
  - intros scol st Hs [Hl Hdone]. apply font_char_column; assumption.
  - rewrite Hrun. cbn [rbind]. exists st.2. split; [reflexivity|].
    split; [exact Hl|exact Hcells].
Qed.

End FontGlyph.

(** X10: on a glyph that has a byte for every column and every group of
    eight rows, [font_char] does not raise: it returns the glyph's width,
    leaves the driver state alone and sends one block at
    (x, y)-(x+width-1, y+height-1) in which pixel (r, c) has the
    foreground colour when bit [r mod 8] of glyph byte
    [c * ceil(height/8) + r / 8] is set, and the background colour
    otherwise. *)
Theorem font_char_glyph miso (f : font) (ch : string) (x y color background : Z)
    (s : state) (glyph : bytes) (h w : Z) :
  f ch = (glyph, h, w) -> 0 <= h -> 0 <= w ->
  w * ((h + 7) / 8) <= Z.of_nat (length glyph) ->
  exists odata,
    font_char miso f ch x y color background s =
      (Ok w, s, block_events x y (x + w - 1) (y + h - 1) odata) /\
    Z.of_nat (length odata) = 2 * h * w /\
    (forall r c : nat, Z.of_nat r < h -> Z.of_nat c < w ->
       pixel_at odata (Z.to_nat w) r c =
       pack_H (if glyph_bit glyph ((h + 7) / 8) r c then color else background)).
Proof.
  intros Hf Hh Hw Hglyph.
  destruct (font_char_data_spec glyph h w color background Hh Hw Hglyph)
    as (od & Hrun & Hl & Hcells).
  exists od. rewrite font_char_run, Hf.
  replace (2 * h * w <? 0) with false by (symmetry; apply Z.ltb_ge; nia).
  rewrite Hrun. split; [reflexivity|].
  split; [rewrite Hl, Z2Nat.id by nia; reflexivity|].
  intros r c Hr Hc. unfold pixel_at, glyph_bit.
  specialize (Hcells (Z.of_nat r) (Z.of_nat c) ltac:(lia) ltac:(lia)).
  replace (2 * (r * Z.to_nat w + c))%nat
    with (Z.to_nat (Z.of_nat r * w * 2 + Z.of_nat c * 2)) by nia.
  exact Hcells.
Qed.

Lemma font_char_glyph_witness :
  exists odata,
    font_char (fun _ => x00) (fun _ => ([x03; x01], 2, 2)) "A" 5 6 0xffff 0
      {| self := {| mode := _MADCTL_BGR; _scroll := 0 |}; rx := 0 |} =
    (Ok 2, {| self := {| mode := _MADCTL_BGR; _scroll := 0 |}; rx := 0 |},
     block_events 5 6 (5 + 2 - 1) (6 + 2 - 1) odata) /\
    Z.of_nat (length odata) = 2 * 2 * 2 /\
    (forall r c : nat, Z.of_nat r < 2 -> Z.of_nat c < 2 ->
       pixel_at odata (Z.to_nat 2) r c =
       pack_H (if glyph_bit [x03; x01] ((2 + 7) / 8) r c then 0xffff else 0)).
Proof.
  apply (font_char_glyph (fun _ => x00) (fun _ => ([x03; x01], 2, 2)) "A"
           5 6 0xffff 0 _ [x03; x01] 2 2);
    [reflexivity|lia|lia|change (2 <= 2); lia].
Defined.

Lemma rfold_Ok_In {A B} (f : B -> A -> result B) (l : list A) (acc b' : B) (a : A) :
  rfold f l acc = Ok b' -> In a l -> exists b b1, f b a = Ok b1.
Proof.
  revert acc. induction l as [|a0 l IH]; intros acc H Hin; [destruct Hin|].
  simpl in H. destruct (f acc a0) as [b1|e] eqn:E; [|discriminate].
  destruct Hin as [->|Hin]; [eauto|]. exact (IH b1 H Hin).
Qed.

Lemma In_range (n k : Z) : 0 <= k < n -> In k (range n).
Proof.
  intros H. unfold range. apply in_map_iff. exists (Z.to_nat k).
  split; [lia|]. apply in_seq. lia.
Qed.

Lemma getitem_Ok_in_range (data : bytes) (i : Z) (b : byte) :
  0 <= i -> getitem data i = Ok b -> i < Z.of_nat (length data).
Proof.
  intros Hi. unfold getitem, index_of.
  destruct (Z.ltb_spec i 0); [lia|].
  destruct (Z.leb_spec 0 i); [|lia].
  destruct (Z.ltb_spec i (Z.of_nat (length data))); [lia|discriminate].
Qed.

(** X11: a glyph with fewer bytes than its size needs makes [font_char]
    raise, and then nothing at all is sent to the panel. *)
Theorem font_char_short_glyph miso (f : font) (ch : string)
    (x y color background : Z) (s : state) (glyph : bytes) (h w : Z) :
  f ch = (glyph, h, w) -> 1 <= h -> 1 <= w ->
  Z.of_nat (length glyph) < w * ((h + 7) / 8) ->
  (exists e, outcome (font_char miso f ch x y color background s) = Raise e) /\
  trace (font_char miso f ch x y color background s) = [] /\
  final (font_char miso f ch x y color background s) = s.
Proof.
  intros Hf Hh Hw Hshort. rewrite font_char_run, Hf.
  destruct (2 * h * w <? 0); [split; [eexists|split]; reflexivity|].
  destruct (font_char_data _ _ _ _ _ _ _) as [od|e] eqn:E;
    [exfalso|split; [eexists|split]; reflexivity].
  rewrite gbytes_ceil in E by lia. unfold font_char_data in E.
  destruct (rfold _ (range w) _) as [st|] eqn:Eout; [|discriminate].
  destruct (rfold_Ok_In _ _ _ _ (w - 1) Eout (In_range w (w - 1) ltac:(lia)))
    as (st0 & st1 & Ecol).
  assert (Hrow : 0 <= 8 * ((h - 1) / 8) < h)
    by (Z.to_euclidean_division_equations; lia).
  destruct (rfold_Ok_In _ _ _ _ (8 * ((h - 1) / 8)) Ecol (In_range h _ Hrow))
    as ([data od0] & st2 & Estep).
  replace ((8 * ((h - 1) / 8)) mod 8) with 0 in Estep
    by (Z.to_euclidean_division_equations; lia).
  cbn [Z.eqb] in Estep.
  destruct (getitem glyph _) as [b|] eqn:Eget; [|discriminate].
  apply getitem_Ok_in_range in Eget.
  - assert ((w - 1) * ((h + 7) / 8) + (h + 7) / 8 = w * ((h + 7) / 8)) by ring.
    assert (8 * ((h - 1) / 8) / 8 = (h + 7) / 8 - 1)
      by (Z.to_euclidean_division_equations; lia).
    lia.
  - assert (0 <= (h + 7) / 8) by (Z.to_euclidean_division_equations; lia).
    assert (0 <= 8 * ((h - 1) / 8) / 8) by (Z.to_euclidean_division_equations; lia).
    nia.
Qed.

Lemma font_char_short_glyph_witness :
  trace (font_char (fun _ => x00) (fun _ => ([x03], 2, 2)) "A" 5 6 0xffff 0
           {| self := {| mode := _MADCTL_BGR; _scroll := 0 |}; rx := 0 |}) = [].
Proof.
  refine (proj1 (proj2 (font_char_short_glyph (fun _ => x00)
                          (fun _ => ([x03], 2, 2)) "A" 5 6 0xffff 0 _
                          [x03] 2 2 _ _ _ _)));
    [reflexivity|lia|lia|change (1 < 2); lia].
Defined.

(** ** More on [text] *)

Lemma filter_cons_op (op op' : Z) (d : bytes) (l : list (Z * bytes)) :
  filter (fun t : Z * bytes => t.1 =? op) ((op', d) :: l) =
  if op' =? op then (op', d) :: filter (fun t : Z * bytes => t.1 =? op) l
  else filter (fun t : Z * bytes => t.1 =? op) l.
Proof.
  rewrite filter_cons. cbn [fst]. destruct (op' =? op); reflexivity.
Qed.

Lemma windows_ok_items (tr : list event) :
  windows_ok tr = forallb item_ok (transfers tr).
Proof.
  unfold windows_ok, col_ranges, page_ranges, params.
  induction (transfers tr) as [|[op d] l IH]; [reflexivity|].
  rewrite !filter_cons_op. cbn [forallb]. rewrite <- IH.
  unfold item_ok. cbn [fst snd].
  destruct (Z.eqb_spec op _COLUMN_SET) as [->|Hc].
  - change (_COLUMN_SET =? _PAGE_SET) with false. cbn [map forallb].
    now rewrite andb_assoc.
  - destruct (op =? _PAGE_SET); cbn [map forallb]; [|reflexivity].
    rewrite !andb_assoc. f_equal. apply andb_comm.
Qed.

Lemma safe_nil : safe [].
Proof. intros dc cs cmd. reflexivity. Qed.

Lemma scan_block (dc cs : Z) (cmd : option Z) (x0 y0 x1 y1 : Z) (d : bytes)
    (tr : list event) :
  scan dc cs cmd (block_events x0 y0 x1 y1 d ++ tr) =
  (_COLUMN_SET, pack_HH x0 x1) :: (_PAGE_SET, pack_HH y0 y1) ::
  (_RAM_WRITE, d) :: scan 1 1 (Some _RAM_WRITE) tr.
Proof.
  unfold block_events. repeat rewrite <- app_assoc.
  rewrite scan_cmd, scan_data, scan_cmd, scan_data, scan_cmd, scan_data.
  reflexivity.
Qed.

Lemma item_ok_bounds (x0 x1 y0 y1 : Z) :
  0 <= x0 -> x0 <= x1 -> x1 < width -> 0 <= y0 -> y0 <= y1 -> y1 < height ->
  item_ok (_COLUMN_SET, pack_HH x0 x1) = true /\
  item_ok (_PAGE_SET, pack_HH y0 y1) = true.
Proof.
  intros. unfold item_ok, width, height in *. cbn [fst snd].
  change (_COLUMN_SET =? _COLUMN_SET) with true.
  change (_PAGE_SET =? _COLUMN_SET) with false.
  change (_PAGE_SET =? _PAGE_SET) with true. cbv iota.
  rewrite !bounds_pack_HH, !Z.mod_small by lia. unfold range_ok.
  rewrite !andb_true_iff, !Z.leb_le, !Z.ltb_lt. lia.
Qed.

Lemma safe_block (x0 y0 x1 y1 : Z) (d : bytes) (tr : list event) :
  0 <= x0 -> x0 <= x1 -> x1 < width -> 0 <= y0 -> y0 <= y1 -> y1 < height ->
  safe tr -> safe (block_events x0 y0 x1 y1 d ++ tr).
Proof.
  intros Hx0 Hx Hx1 Hy0 Hy Hy1 Htr dc cs cmd. rewrite scan_block.
  destruct (item_ok_bounds x0 x1 y0 y1) as [Hc Hp]; try assumption.
  cbn [forallb]. rewrite Hc, Hp, Htr. reflexivity.
Qed.

Lemma safe_fill (x y w h color : Z) (tr : list event) :
  safe tr -> safe (fill_events x y w h color ++ tr).
Proof.
  intros Htr dc cs cmd. unfold fill_events.
  destruct (clamp x y w h) as [[[x' y'] w'] h'] eqn:E.
  apply clamp_bounds in E. repeat rewrite <- app_assoc.
  rewrite scan_block, scan_data_chunks, scan_data.
  destruct (item_ok_bounds x' (x' + w' - 1) y' (y' + h' - 1)) as [Hc Hp];
    try lia.
  cbn [forallb]. rewrite Hc, Hp. cbn [andb].
  rewrite forallb_app. cbn [forallb]. rewrite Htr.
  rewrite !andb_true_r. change (item_ok (_RAM_WRITE, [])) with true. cbn [andb].
  apply forallb_forall. intros t Ht. apply list_elem_of_In, elem_of_replicate in Ht.
  destruct Ht as [-> _]. reflexivity.
Qed.

Section TextBuiltin.

Variables (miso : nat -> byte) (framebuf_text : string -> nat -> byte).
Variables (x y color background wrap vwrap : Z) (clear_eol : bool).

Let loop := text_loop miso framebuf_text x y color background wrap vwrap
              clear_eol None.

(** One turn of the loop of [text] with the built-in font, as equations
    on the trace. *)
Lemma text_loop_newline (rest : list ascii) (cur : Z * Z) (s : state) :
  loop ("010"%char :: rest) cur s =
  (let '(r, s2, t2) := loop rest (new_line x y vwrap cur) s in
   (r, s2,
    (if clear_eol && (cur.1 <? wrap)
     then fill_events cur.1 cur.2 (wrap - cur.1 + 7) 8 background
     else []) ++ t2)).
Proof.
  subst loop. cbn [text_loop]. change (Ascii.eqb "010" "010") with true. cbv iota.
  unfold bind. destruct (clear_eol && (cur.1 <? wrap)).
  - rewrite fill_rectangle_run. reflexivity.
  - reflexivity.
Qed.

Lemma text_loop_glyph (ch : ascii) (rest : list ascii) (cur : Z * Z) (s : state) :
  ch <> "010"%char ->
  loop (ch :: rest) cur s =
  (let cur1 := if cur.1 >=? wrap then new_line x y vwrap cur else cur in
   let '(r, s2, t2) := loop rest (cur1.1 + 8, cur1.2) s in
   (r, s2,
    block_events cur1.1 cur1.2 (cur1.1 + 7) (cur1.2 + 7)
      (glyph_data framebuf_text (String ch EmptyString) color background) ++ t2)).
Proof.
  intros Hch. apply Ascii.eqb_neq in Hch.
  subst loop. cbn [text_loop]. rewrite Hch. cbv zeta.
  unfold bind. rewrite char_run. reflexivity.
Qed.

(** The loop runs to the end of any string and gives the state back. *)
Lemma text_loop_runs (chars : list ascii) (cur : Z * Z) (s : state) :
  exists cur' t, loop chars cur s = (Ok cur', s, t).
Proof.
  revert cur. induction chars as [|ch rest IH]; intros cur.
  - exists cur, []. reflexivity.
  - destruct (ascii_dec ch "010"%char) as [->|Hch].
    + rewrite text_loop_newline.
      destruct (IH (new_line x y vwrap cur)) as (cur' & t & ->). eauto.
    + rewrite text_loop_glyph by exact Hch. cbv zeta.
      match goal with
      | |- context [loop rest ?c s] => destruct (IH c) as (cur' & t & ->)
      end.
      eauto.
Qed.

Hypothesis Hx : 0 <= x /\ x + 7 < width.
Hypothesis Hy : 0 <= y /\ y + 7 < height.
Hypothesis Hwrap : wrap + 7 <= width.
Hypothesis Hvwrap : vwrap + 7 <= height.

(** Where the cursor can be: right of the start, not above it, and with
    room for a line of 8 pixels below it. *)
Let cursor_ok (cur : Z * Z) : Prop :=
  x <= cur.1 /\ y <= cur.2 /\ cur.2 + 7 < height.

Lemma new_line_ok (cur : Z * Z) : cursor_ok cur -> cursor_ok (new_line x y vwrap cur).
Proof.
  unfold cursor_ok, new_line. intros (H1 & H2 & H3).
  destruct (Z.geb_spec (cur.2 + 8) vwrap); cbn [fst snd]; lia.
Qed.

Lemma text_loop_safe (chars : list ascii) (cur : Z * Z) (s : state) :
  cursor_ok cur ->
  exists cur' t,
    loop chars cur s = (Ok cur', s, t) /\
    forall tr, safe tr -> safe (t ++ tr).
Proof.
  revert cur. induction chars as [|ch rest IH]; intros cur Hcur.
  - exists cur, []. split; [reflexivity|auto].
  - destruct (ascii_dec ch "010"%char) as [->|Hch].
    + rewrite text_loop_newline.
      destruct (IH _ (new_line_ok cur Hcur)) as (cur' & t & -> & Hsafe).
      eexists _, _. split; [reflexivity|]. intros tr Htr.
      rewrite <- app_assoc.
      destruct (clear_eol && (cur.1 <? wrap)); [apply safe_fill|]; now apply Hsafe.
    + rewrite text_loop_glyph by exact Hch. cbv zeta.
      set (cur1 := if cur.1 >=? wrap then new_line x y vwrap cur else cur).
      assert (H1 : cursor_ok cur1 /\ cur1.1 + 7 < width).
      { subst cur1. destruct (Z.geb_spec (cur.1) wrap) as [Hge|Hlt].
        - split; [now apply new_line_ok|].
          unfold new_line. destruct (_ >=? _); cbn [fst]; lia.
        - split; [exact Hcur|]. destruct Hcur. lia. }
      destruct H1 as [(Ha & Hb & Hc) Hd].
      destruct (IH (cur1.1 + 8, cur1.2)) as (cur' & t & -> & Hsafe);
        [unfold cursor_ok; cbn [fst snd]; lia|].
      eexists _, _. split; [reflexivity|]. intros tr Htr.
      rewrite <- app_assoc. apply safe_block; try lia. now apply Hsafe.
Qed.

End TextBuiltin.

Section TextLine.

Variables (miso : nat -> byte) (framebuf_text : string -> nat -> byte).
Variables (x y color background wrap vwrap : Z) (clear_eol : bool).

(** A run of characters that fits before the wrap boundary is laid out on
    one line, left to right, 8 pixels a character. *)
Lemma text_loop_line (chars : list ascii) (tx : Z) (s : state) :
  Forall (fun ch => ch <> "010"%char) chars ->
  tx + 8 * Z.of_nat (length chars) <= wrap + 7 ->
  text_loop miso framebuf_text x y color background wrap vwrap clear_eol None
    chars (tx, y) s =
  (Ok (tx + 8 * Z.of_nat (length chars), y), s,
   line_events framebuf_text color background y chars tx).
Proof.
  intros Hnl. revert tx. induction Hnl as [|ch rest Hch Hrest IH]; intros tx Hfit.
  - cbn [length text_loop line_events]. unfold ret.
    replace (tx + 8 * Z.of_nat 0) with tx by lia. reflexivity.
  - cbn [length] in Hfit. rewrite text_loop_glyph by exact Hch. cbn [fst snd].
    replace (tx >=? wrap) with false
      by (symmetry; rewrite Z.geb_leb; apply Z.leb_gt; lia).
    cbv zeta. cbn [fst snd]. rewrite IH by lia. cbn [length line_events].
    replace (tx + 8 + 8 * Z.of_nat (length rest))
      with (tx + 8 * Z.of_nat (S (length rest))) by lia.
    reflexivity.
Qed.

End TextLine.

(** X12: with the built-in font [text] never raises and leaves the driver
    state alone, whatever the string, the position, the boundaries and
    the clearing mode. *)
Theorem text_builtin_returns miso framebuf_text (txt : string)
    (x y color background : Z) (wrap vwrap : option Z) (clear_eol : bool)
    (s : state) :
  outcome (text miso framebuf_text txt x y color background wrap vwrap
             clear_eol None s) = Ok tt /\
  final (text miso framebuf_text txt x y color background wrap vwrap
           clear_eol None s) = s.
Proof.
  unfold text, bind.
  match goal with
  | |- context [text_loop _ _ _ _ _ _ ?w ?v _ _ ?l ?c s] =>
      destruct (text_loop_runs miso framebuf_text x y color background w v
                  clear_eol l c s) as (cur' & t & ->)
  end.
  destruct (clear_eol && _); [rewrite fill_rectangle_run|]; split; reflexivity.
Qed.

(** X13: text that starts on the panel stays on it.  With the built-in
    font, a start position that leaves room for one glyph, and wrap
    boundaries no further than 7 pixels from the right and bottom edges
    (the defaults are 8), every window [text] programs lies on the panel,
    for every string. *)
Theorem text_windows_on_panel miso framebuf_text (txt : string)
    (x y color background : Z) (wrap vwrap : option Z) (clear_eol : bool)
    (s : state) :
  0 <= x -> x + 7 < width -> 0 <= y -> y + 7 < height ->
  match wrap with Some v => v + 7 <= width | None => True end ->
  match vwrap with Some v => v + 7 <= height | None => True end ->
  windows_ok (trace (text miso framebuf_text txt x y color background wrap vwrap
                       clear_eol None s)) = true.
Proof.
  intros Hx0 Hx1 Hy0 Hy1 Hwrap Hvwrap. rewrite windows_ok_items.
  unfold text, bind.
  match goal with
  | |- context [text_loop _ _ _ _ _ _ ?w ?v _ _ ?l ?c s] =>
      destruct (text_loop_safe miso framebuf_text x y color background w v
                  clear_eol) with (chars := l) (cur := c) (s := s)
        as (cur' & t & -> & Hsafe)
  end.
  - split; assumption.
  - split; assumption.
  - destruct wrap; unfold width in *; lia.
  - destruct vwrap; unfold height in *; lia.
  - cbn [fst snd]. lia.
  - destruct (clear_eol && _).
    + rewrite fill_rectangle_run. unfold trace. cbn [snd].
      apply Hsafe. rewrite <- (app_nil_r (fill_events _ _ _ _ _)).
      apply safe_fill, safe_nil.
    + unfold ret, trace. cbn [snd]. apply Hsafe, safe_nil.
Qed.

Lemma text_windows_on_panel_witness :
  windows_ok (trace (text (fun _ => x00) (fun _ _ => x00) (String.append "Hello" (String "010" "world, long enough to wrap"))
                       300 220 0xffff 0
                       None None true None
                       {| self := {| mode := _MADCTL_BGR; _scroll := 0 |};
                          rx := 0 |})) = true.
Proof.
  apply (text_windows_on_panel (fun _ => x00) (fun _ _ => x00) _ 300 220 0xffff 0
           None None true);
    unfold width, height; try lia; exact I.
Defined.

(** X14: a string without newlines that fits before the wrap boundary is
    drawn on the starting line, character [i] at x + 8 i; when clearing
    is asked for and the cursor ends left of the boundary, one fill of
    the background follows, from the cursor to 7 pixels past the
    boundary and 8 pixels high. *)
Theorem text_single_line miso framebuf_text (txt : string)
    (x y color background wrap : Z) (vwrap : option Z) (clear_eol : bool)
    (s : state) :
  Forall (fun ch => ch <> "010"%char) (list_ascii_of_string txt) ->
  x + 8 * Z.of_nat (String.length txt) <= wrap + 7 ->
  text miso framebuf_text txt x y color background (Some wrap) vwrap
       clear_eol None s =
  (Ok tt, s,
   line_events framebuf_text color background y (list_ascii_of_string txt) x ++
   (if clear_eol && (x + 8 * Z.of_nat (String.length txt) <? wrap)
    then fill_events (x + 8 * Z.of_nat (String.length txt)) y
           (wrap - (x + 8 * Z.of_nat (String.length txt)) + 7) 8 background
    else [])).
Proof.
  intros Hnl Hfit.
  assert (Hlen : length (list_ascii_of_string txt) = String.length txt).
  { clear. induction txt as [|c txt IH]; [reflexivity|]. simpl. now rewrite IH. }
  unfold text, bind. rewrite text_loop_line by (rewrite ?Hlen; assumption).
  rewrite Hlen. cbn [fst snd].
  destruct (clear_eol && _); [rewrite fill_rectangle_run|]; reflexivity.
Qed.

Lemma text_single_line_witness :
  text (fun _ => x00) (fun _ _ => x00) "Hi" 0 0 0xffff 0 (Some 312) None true None
       {| self := {| mode := _MADCTL_BGR; _scroll := 0 |}; rx := 0 |} =
  (Ok tt, {| self := {| mode := _MADCTL_BGR; _scroll := 0 |}; rx := 0 |},
   line_events (fun _ _ => x00) 0xffff 0 0 (list_ascii_of_string "Hi") 0 ++
   (if true && (0 + 8 * Z.of_nat (String.length "Hi") <? 312)
    then fill_events (0 + 8 * Z.of_nat (String.length "Hi")) 0
           (312 - (0 + 8 * Z.of_nat (String.length "Hi")) + 7) 8 0
    else [])).
Proof.
  apply (text_single_line (fun _ => x00) (fun _ _ => x00) "Hi" 0 0 0xffff 0 312
           None true).
  - repeat constructor; discriminate.
  - simpl. lia.
Defined.

(** ** More on [scroll], [set_rotation] and the constructor *)

Lemma scroll_set_run (dy : Z) (s : state) :
  scroll (Some dy) s =
  (Ok None,
   {| self := {| mode := mode (self s);
                 _scroll := (_scroll (self s) + dy) mod height |};
      rx := rx s |},
   cmd_events _LINE_SET ++
   data_events (pack_H ((_scroll (self s) + dy) mod height))).
Proof. reflexivity. Qed.

(** X15: scrolling adds up modulo the panel height.  Two calls leave the
    same state as one call with the sum, a multiple of the height changes
    nothing in what is stored, and [scroll()] afterwards returns exactly
    the value the last call wrote to the register. *)
Theorem scroll_composes (a b k : Z) (s : state) :
  final (scroll (Some b) (final (scroll (Some a) s))) =
    final (scroll (Some (a + b)) s) /\
  final (scroll (Some (a + height * k)) s) = final (scroll (Some a) s) /\
  outcome (scroll None (final (scroll (Some a) s))) =
    Ok (Some ((_scroll (self s) + a) mod height)) /\
  map (fun t : Z * bytes => be_value t.2) (transfers (trace (scroll (Some a) s))) =
    [(_scroll (self s) + a) mod height].
Proof.
  pose proof (Z.mod_pos_bound (_scroll (self s) + a) height ltac:(reflexivity)) as Hm.
  rewrite !scroll_set_run. unfold final, outcome. cbn [fst snd self _scroll mode rx].
  split; [|split; [|split]].
  - rewrite Zplus_mod_idemp_l, Z.add_assoc. reflexivity.
  - rewrite Z.add_assoc, (Z.mul_comm height k), Z.mod_add by (unfold height; lia).
    reflexivity.
  - reflexivity.
  - unfold trace, transfers. cbn [snd].
    rewrite scan_cmd, <- (app_nil_r (data_events _)), scan_data. cbn [map snd scan].
    rewrite be_value_pack_H_small by (unfold height in *; lia). reflexivity.
Qed.

(** X16: from the constructor on, whatever the rotation and mode it was
    given and whatever sequence of [scroll] calls follows, the stored
    scroll offset is a line of the panel: between 0 and height - 1. *)
Theorem scroll_offset_in_range (rotation mode_ : Z) (dys : list (option Z))
    (s : state) :
  0 <= _scroll (self (fold_left (fun s dy => final (scroll dy s)) dys
                        (final (__init__ rotation mode_ s)))) < height.
Proof.
  apply scroll_invariant.
  destruct (constructor_state rotation mode_ s) as [_ ->]. cbn [_scroll].
  unfold height. lia.
Qed.

(** X17: only [value mod 4] matters to [set_rotation], for negative
    values too; it never raises and never changes the driver state (the
    recorded width and height stay 320 and 240). *)
Theorem set_rotation_periodic (value k : Z) (s : state) :
  set_rotation (value + 4 * k) s = set_rotation value s /\
  set_rotation value s = set_rotation (value mod 4) s /\
  outcome (set_rotation value s) = Ok tt /\
  final (set_rotation value s) = s.
Proof.
  rewrite !set_rotation_run.
  rewrite (Z.mul_comm 4 k), Z.mod_add, Z.mod_mod by lia.
  repeat split.
Qed.




(** ** The read path of [_block] *)

(** X19: without data, [_block] programs the window it is given and then
    reads three bytes for each of its pixels: the reply is the next
    [3 * (x1-x0+1) * (y1-y0+1)] bytes of the panel, returned as they
    come, and the driver object is not changed. *)
Theorem block_read_count miso (x0 y0 x1 y1 : Z) (s : state) :
  x0 <= x1 -> y0 <= y1 ->
  exists reply,
    _block miso x0 y0 x1 y1 None s =
      (Ok (Some reply),
       {| self := self s; rx := rx s + length reply |},
       cmd_events _COLUMN_SET ++ data_events (pack_HH x0 x1) ++
       cmd_events _PAGE_SET ++ data_events (pack_HH y0 y1) ++
       [DcValue 0; CsValue 0; SpiWrite [byte_of_Z _RAM_READ];
        SpiRead ((x1 - x0 + 1) * (y1 - y0 + 1) * 3) reply; CsValue 1]) /\
    Z.of_nat (length reply) = 3 * ((x1 - x0 + 1) * (y1 - y0 + 1)) /\
    reply = map miso (seq (rx s) (length reply)).
Proof.
  intros Hx Hy.
  exists (map miso (seq (rx s) (Z.to_nat ((x1 - x0 + 1) * (y1 - y0 + 1) * 3)))).
  rewrite length_map, length_seq. split; [reflexivity|]. split; [nia|reflexivity].
Qed.

Lemma block_read_count_witness :
  exists reply,
    _block (fun n => if Nat.even n then xff else x00) 10 20 11 22 None
      {| self := {| mode := _MADCTL_BGR; _scroll := 0 |}; rx := 0 |} =
      (Ok (Some reply),
       {| self := {| mode := _MADCTL_BGR; _scroll := 0 |};
          rx := 0 + length reply |},
       cmd_events _COLUMN_SET ++ data_events (pack_HH 10 11) ++
       cmd_events _PAGE_SET ++ data_events (pack_HH 20 22) ++
       [DcValue 0; CsValue 0; SpiWrite [byte_of_Z _RAM_READ];
        SpiRead ((11 - 10 + 1) * (22 - 20 + 1) * 3) reply; CsValue 1]) /\
    Z.of_nat (length reply) = 3 * ((11 - 10 + 1) * (22 - 20 + 1)) /\
    reply = map (fun n => if Nat.even n then xff else x00) (seq 0 (length reply)).
Proof.
  apply (block_read_count (fun n => if Nat.even n then xff else x00) 10 20 11 22
           {| self := {| mode := _MADCTL_BGR; _scroll := 0 |}; rx := 0 |}); lia.
Defined.

(** ** Newlines in [text] *)

Lemma list_ascii_of_string_app (s1 s2 : string) :
  list_ascii_of_string (String.append s1 s2) =
  list_ascii_of_string s1 ++ list_ascii_of_string s2.
Proof.
  induction s1 as [|c s1 IH]; [reflexivity|]. simpl. now rewrite IH.
Qed.

Lemma length_list_ascii_of_string (txt : string) :
  length (list_ascii_of_string txt) = String.length txt.
Proof. induction txt as [|c txt IH]; [reflexivity|]. simpl. now rewrite IH. Qed.

(** A run of characters that fits on the starting line, followed by more
    text: the run is laid out first and the loop goes on from the cursor
    behind it. *)
Lemma text_loop_line_then miso framebuf_text
    (x y color background wrap vwrap : Z) (clear_eol : bool)
    (chars rest : list ascii) (tx : Z) (s : state) :
  Forall (fun ch => ch <> "010"%char) chars ->
  tx + 8 * Z.of_nat (length chars) <= wrap + 7 ->
  text_loop miso framebuf_text x y color background wrap vwrap clear_eol None
    (chars ++ rest) (tx, y) s =
  (let '(r, s2, t2) :=
     text_loop miso framebuf_text x y color background wrap vwrap clear_eol None
       rest (tx + 8 * Z.of_nat (length chars), y) s in
   (r, s2, line_events framebuf_text color background y chars tx ++ t2)).
Proof.
  intros Hnl. revert tx. induction Hnl as [|ch chars Hch Hchars IH]; intros tx Hfit.
  - cbn [length app line_events]. replace (tx + 8 * Z.of_nat 0) with tx by lia.
    destruct (text_loop _ _ _ _ _ _ _ _ _ _ rest (tx, y) s) as [[r s2] t2].
    reflexivity.
  - cbn [length] in Hfit. cbn [app]. rewrite text_loop_glyph by exact Hch.
    cbn [fst snd].
    replace (tx >=? wrap) with false
      by (symmetry; rewrite Z.geb_leb; apply Z.leb_gt; lia).
    cbv zeta. cbn [fst snd]. rewrite IH by lia. cbn [length line_events].
    replace (tx + 8 + 8 * Z.of_nat (length chars))
      with (tx + 8 * Z.of_nat (S (length chars))) by lia.
    destruct (text_loop _ _ _ _ _ _ _ _ _ _ rest _ s) as [[r s2] t2].
    now rewrite <- app_assoc.
Qed.

(** X20: with the built-in font, take a start with x < wrap, any run of
    characters without newline that fits on the starting line
    (x + 8 len <= wrap + 7), then a newline, then one more character.
    The run is drawn on the starting line; with clearing on, and the
    cursor left of the boundary, the rest of that line is filled; and the
    character after the newline is drawn at the starting x, one line of 8
    pixels lower when y + 8 < vwrap, and back at the starting y, on top
    of the first line, when y + 8 >= vwrap.  With clearing on, the rest
    of that last line is filled too. *)
Theorem text_newline miso framebuf_text (pre : string) (c2 : ascii)
    (x y y2 color background wrap vwrap : Z) (clear_eol : bool) (s : state) :
  Forall (fun ch => ch <> "010"%char) (list_ascii_of_string pre) ->
  c2 <> "010"%char -> x < wrap ->
  x + 8 * Z.of_nat (String.length pre) <= wrap + 7 ->
  y2 = (if y + 8 >=? vwrap then y else y + 8) ->
  text miso framebuf_text
       (String.append pre (String "010" (String c2 EmptyString)))
       x y color background (Some wrap) (Some vwrap) clear_eol None s =
  (Ok tt, s,
   line_events framebuf_text color background y (list_ascii_of_string pre) x ++
   (if clear_eol && (x + 8 * Z.of_nat (String.length pre) <? wrap)
    then fill_events (x + 8 * Z.of_nat (String.length pre)) y
           (wrap - (x + 8 * Z.of_nat (String.length pre)) + 7) 8 background
    else []) ++
   block_events x y2 (x + 7) (y2 + 7)
     (glyph_data framebuf_text (String c2 EmptyString) color background) ++
   (if clear_eol && (x + 8 <? wrap)
    then fill_events (x + 8) y2 (wrap - (x + 8) + 7) 8 background
    else [])).
Proof.
  intros Hpre H2 Hx Hfit Hy2.
  assert (Hno : (x >=? wrap) = false)
    by (rewrite Z.geb_leb; apply Z.leb_gt; lia).
  assert (Hnew : new_line x y vwrap
                   (x + 8 * Z.of_nat (String.length pre), y) = (x, y2)).
  { unfold new_line. cbn [fst snd]. rewrite Hy2.
    destruct (y + 8 >=? vwrap); reflexivity. }
  unfold text, bind. rewrite list_ascii_of_string_app.
  cbn [list_ascii_of_string].
  rewrite text_loop_line_then
    by (rewrite ?length_list_ascii_of_string; assumption).
  rewrite length_list_ascii_of_string, text_loop_newline, Hnew.
  rewrite text_loop_glyph by exact H2. cbn [fst snd]. rewrite Hno. cbv zeta.
  cbn [fst snd text_loop ret]. rewrite app_nil_r.
  destruct (clear_eol && (x + 8 <? wrap));
    [rewrite fill_rectangle_run|unfold ret]; rewrite <- ?app_assoc; reflexivity.
Qed.

Lemma text_newline_witness :
  text (fun _ => x00) (fun _ _ => x00)
       (String.append "ab" (String "010" (String "c" EmptyString)))
       0 0 0xffff 0 (Some 312) (Some 232) true None
       {| self := {| mode := _MADCTL_BGR; _scroll := 0 |}; rx := 0 |} =
  (Ok tt, {| self := {| mode := _MADCTL_BGR; _scroll := 0 |}; rx := 0 |},
   line_events (fun _ _ => x00) 0xffff 0 0 (list_ascii_of_string "ab") 0 ++
   (if true && (0 + 8 * Z.of_nat (String.length "ab") <? 312)
    then fill_events (0 + 8 * Z.of_nat (String.length "ab")) 0
           (312 - (0 + 8 * Z.of_nat (String.length "ab")) + 7) 8 0
    else []) ++
   block_events 0 8 (0 + 7) (8 + 7)
     (glyph_data (fun _ _ => x00) (String "c" EmptyString) 0xffff 0) ++
   (if true && (0 + 8 <? 312)
    then fill_events (0 + 8) 8 (312 - (0 + 8) + 7) 8 0
    else [])) /\
  text (fun _ => x00) (fun _ _ => x00)
       (String.append "ab" (String "010" (String "c" EmptyString)))
       0 0 0xffff 0 (Some 312) (Some 8) false None
       {| self := {| mode := _MADCTL_BGR; _scroll := 0 |}; rx := 0 |} =
  (Ok tt, {| self := {| mode := _MADCTL_BGR; _scroll := 0 |}; rx := 0 |},
   line_events (fun _ _ => x00) 0xffff 0 0 (list_ascii_of_string "ab") 0 ++
   (if false && (0 + 8 * Z.of_nat (String.length "ab") <? 312)
    then fill_events (0 + 8 * Z.of_nat (String.length "ab")) 0
           (312 - (0 + 8 * Z.of_nat (String.length "ab")) + 7) 8 0
    else []) ++
   block_events 0 0 (0 + 7) (0 + 7)
     (glyph_data (fun _ _ => x00) (String "c" EmptyString) 0xffff 0) ++
   (if false && (0 + 8 <? 312)
    then fill_events (0 + 8) 0 (312 - (0 + 8) + 7) 8 0
    else [])).
Proof.
  split.
  - apply (text_newline (fun _ => x00) (fun _ _ => x00) "ab" "c"%char
             0 0 8 0xffff 0 312 232 true);
      [repeat constructor; discriminate|discriminate|lia|simpl; lia|reflexivity].
  - apply (text_newline (fun _ => x00) (fun _ _ => x00) "ab" "c"%char
             0 0 0 0xffff 0 312 8 false);
      [repeat constructor; discriminate|discriminate|lia|simpl; lia|reflexivity].
Defined.
